(** * parse-multipart: the multipart/form-data scanner and part assembler

    A shallow embedding of [src/multipart.js] ([multipart.parse] with its
    inner [process] and [obj], [multipart.getBoundary], and the handler of
    [multipart.middleware] with its [mapFormData]) with the properties of
    it that the specification states, and further properties of the code.

    Modelling conventions.
    - A [Buffer] and the JS array [buffer] of byte values are [list byte].
    - A JS string is a [string]: a sequence of code units below 256.
      [Buffer.prototype.toString()] (UTF-8 decoding) is the unit-for-byte
      map [toString], which is what UTF-8 decoding does on 7-bit input.
      With a 7-bit boundary the comparisons of the scanner are exact on
      arbitrary body bytes, since a byte above 127 never decodes to a 7-bit
      character; the general theorems about the scanner are stated for
      7-bit boundaries.
    - The variables of [parse] that live across iterations are the record
      [scanner], the loop body is [step] and the loop is [run]; the byte
      before the current one is kept in the record.
    - A thrown exception is the [Throw] outcome of the [outcome] monad;
      [TypeError] is what reading a property of [undefined] raises and
      [SyntaxError] is what [JSON.parse] raises.
    - A JS object built with [Object.defineProperty] is a finite map from
      property names to values.

    The file has the model first, then the vocabulary of the statements
    (bodies, header lines, test data), the lemmas, the claims [C1] to
    [C10] of the specification, each with its witness or counterexample,
    and the further properties [X1] to [X16]. *)

From Stdlib Require Import Strings.Byte Strings.Ascii.
From stdpp Require Import base option list strings gmap.

Set Warnings "-register-all".

(** ** Outcomes: a value or a thrown exception *)

Inductive error := TypeError | SyntaxError.

Inductive outcome (A : Type) :=
| Ok (a : A)
| Throw (e : error).
Arguments Ok {A} a.
Arguments Throw {A} e.

#[global] Instance outcome_ret : MRet outcome := λ A a, Ok a.

#[global] Instance outcome_bind : MBind outcome := λ A B k m,
  match m with
  | Ok a => k a
  | Throw e => Throw e
  end.

Fixpoint mapM_outcome {A B} (f : A → outcome B) (l : list A) : outcome (list B) :=
  match l with
  | [] => Ok []
  | a :: r => b ← f a; bs ← mapM_outcome f r; Ok (b :: bs)
  end.

#[global] Instance error_eq_dec : EqDecision error.
Proof. solve_decision. Defined.

#[global] Instance byte_eq_decision : EqDecision byte := Byte.byte_eq_dec.

(** The double quote character. *)
Abbreviation dq := "034"%char.

(** ** JavaScript string primitives *)

Module JS.

(** [String.prototype.split] with a one-character separator. *)
Fixpoint split (sep : ascii) (s : string) : list string :=
  match s with
  | EmptyString => [EmptyString]
  | String c r =>
      if Ascii.eqb c sep then EmptyString :: split sep r
      else match split sep r with
           | h :: t => String c h :: t
           | [] => [String c EmptyString]
           end
  end.

(** The white space and line terminators that [trim] strips, among the
    code units below 256: TAB, LF, VT, FF, CR, SP and NBSP. *)
Definition is_space (c : ascii) : bool :=
  let n := nat_of_ascii c in
  ((9 <=? n)%nat && (n <=? 13)%nat) || (n =? 32)%nat || (n =? 160)%nat.

Fixpoint trim_start (s : string) : string :=
  match s with
  | EmptyString => EmptyString
  | String c r => if is_space c then trim_start r else s
  end.

(** [trim_end] keeps a character when it is not white space or when
    something is kept after it. *)
Fixpoint trim_end (s : string) : string :=
  match s with
  | EmptyString => EmptyString
  | String c r =>
      match trim_end r with
      | EmptyString => if is_space c then EmptyString else String c EmptyString
      | r' => String c r'
      end
  end.

(** [String.prototype.trim]. *)
Definition trim (s : string) : string := trim_end (trim_start s).

(** [String.prototype.indexOf]: the first position where [pat] occurs,
    [-1] when it does not. *)
Fixpoint indexOf (pat s : string) : Z :=
  if String.prefix pat s then 0%Z
  else match s with
       | EmptyString => (-1)%Z
       | String _ r =>
           let i := indexOf pat r in if (i <? 0)%Z then (-1)%Z else (i + 1)%Z
       end.

(** [x + ''] for [x] a string or [undefined]. *)
Definition to_str (x : option string) : string :=
  match x with
  | Some s => s
  | None => "undefined"
  end.

End JS.

(** ** [JSON.parse] *)

(** A JS value as [JSON.parse] and [process] produce them.  [VNum neg m e] is
    the decimal [±m·10^e] that a number literal denotes (the JS number is the
    double nearest to it); [VObj] keeps the members of an object literal as
    written; [VBuf] is a [Buffer]. *)
Inductive jsval :=
| VNull
| VBool (b : bool)
| VNum (neg : bool) (m : N) (e : Z)
| VStr (s : string)
| VArr (l : list jsval)
| VObj (members : list (string * jsval))
| VBuf (bs : list byte).

Module JSON.

Definition is_ws (c : ascii) : bool :=
  let n := nat_of_ascii c in (n =? 32) || (n =? 9) || (n =? 10) || (n =? 13).

Fixpoint skip_ws (s : string) : string :=
  match s with
  | EmptyString => EmptyString
  | String c r => if is_ws c then skip_ws r else s
  end.

Definition is_digit (c : ascii) : bool :=
  let n := nat_of_ascii c in (48 <=? n) && (n <=? 57).

Definition digit_val (c : ascii) : N := N.of_nat (nat_of_ascii c - 48).

Definition hex_val (c : ascii) : option N :=
  let n := nat_of_ascii c in
  if (48 <=? n) && (n <=? 57) then Some (N.of_nat (n - 48))
  else if (65 <=? n) && (n <=? 70) then Some (N.of_nat (n - 55))
  else if (97 <=? n) && (n <=? 102) then Some (N.of_nat (n - 87))
  else None.

(** The single-character escapes of a string literal. *)
Definition unescape (c : ascii) : option ascii :=
  let n := nat_of_ascii c in
  if (n =? 34) || (n =? 92) || (n =? 47) then Some c
  else if n =? 98 then Some (ascii_of_nat 8)
  else if n =? 102 then Some (ascii_of_nat 12)
  else if n =? 110 then Some (ascii_of_nat 10)
  else if n =? 114 then Some (ascii_of_nat 13)
  else if n =? 116 then Some (ascii_of_nat 9)
  else None.

Inductive smode :=
| SNormal
| SEscape
| SUnicode (pending : nat) (acc : N).

Definition scons (c : ascii) (r : option (string * string)) : option (string * string) :=
  match r with
  | Some (s, rest) => Some (String c s, rest)
  | None => None
  end.

(** The characters of a string literal after its opening quote: the
    decoded string and what follows the closing quote.  An escape above
    [\u00ff] denotes a code unit outside the modelled alphabet; texts
    that have one are outside the model and are rejected here. *)
Fixpoint string_chars (m : smode) (s : string) : option (string * string) :=
  match s with
  | EmptyString => None
  | String c r =>
      let n := nat_of_ascii c in
      match m with
      | SNormal =>
          if n =? 34 then Some (EmptyString, r)
          else if n =? 92 then string_chars SEscape r
          else if n <? 32 then None
          else scons c (string_chars SNormal r)
      | SEscape =>
          match unescape c with
          | Some c' => scons c' (string_chars SNormal r)
          | None => if n =? 117 then string_chars (SUnicode 3 0) r else None
          end
      | SUnicode k acc =>
          match hex_val c with
          | None => None
          | Some d =>
              let acc' := (acc * 16 + d)%N in
              match k with
              | S k' => string_chars (SUnicode k' acc') r
              | O => if (acc' <? 256)%N
                     then scons (ascii_of_N acc') (string_chars SNormal r)
                     else None
              end
          end
      end
  end.

(** The longest run of digits at the front of [s], read as a number on top
    of [acc], with how many digits were read and the rest. *)
Fixpoint digits (acc : N) (cnt : nat) (s : string) : N * nat * string :=
  match s with
  | String c r =>
      if is_digit c then digits (acc * 10 + digit_val c)%N (S cnt) r
      else (acc, cnt, s)
  | EmptyString => (acc, cnt, s)
  end.

Definition starts (c : ascii) (s : string) : option string :=
  match s with
  | String c' r => if Ascii.eqb c c' then Some r else None
  | EmptyString => None
  end.

Definition strip (p s : string) : option string :=
  if String.prefix p s
  then Some (String.substring (String.length p) (String.length s - String.length p) s)
  else None.

(** A number literal: an optional minus sign, an integer part without
    leading zeros, an optional fraction and an optional exponent. *)
Definition number (s : string) : option (jsval * string) :=
  let '(neg, s1) := match starts "-" s with Some r => (true, r) | None => (false, s) end in
  '(int, s2) ← match s1 with
                | String c r =>
                    if Ascii.eqb c "0" then Some (0%N, r)
                    else if is_digit c then let '(n, _, r') := digits 0 0 s1 in Some (n, r')
                    else None
                | EmptyString => None
                end;
  '(m, fl, s3) ← match starts "." s2 with
                  | Some r =>
                      let '(n, cnt, r') := digits int 0 r in
                      if (cnt =? 0) then None else Some (n, cnt, r')
                  | None => Some (int, 0, s2)
                  end;
  '(ex, s4) ← match s3 with
               | String c r =>
                   if Ascii.eqb c "e" || Ascii.eqb c "E" then
                     let '(sg, r1) := match starts "-" r with
                                      | Some r1 => (true, r1)
                                      | None => match starts "+" r with
                                                | Some r1 => (false, r1)
                                                | None => (false, r)
                                                end
                                      end in
                     let '(n, cnt, r2) := digits 0 0 r1 in
                     if (cnt =? 0) then None
                     else Some (if sg then (- Z.of_N n)%Z else Z.of_N n, r2)
                   else Some (0%Z, s3)
               | EmptyString => Some (0%Z, s3)
               end;
  Some (VNum neg m (ex - Z.of_nat fl)%Z, s4).

Fixpoint value (fuel : nat) (s : string) : option (jsval * string) :=
  match fuel with
  | O => None
  | S f =>
      match skip_ws s with
      | EmptyString => None
      | String c r =>
          if Ascii.eqb c dq then
            '(str, r') ← string_chars SNormal r; Some (VStr str, r')
          else if Ascii.eqb c "[" then
            match starts "]" (skip_ws r) with
            | Some r' => Some (VArr [], r')
            | None => '(vs, r') ← elements f r; Some (VArr vs, r')
            end
          else if Ascii.eqb c "{" then
            match starts "}" (skip_ws r) with
            | Some r' => Some (VObj [], r')
            | None => '(ms, r') ← members f r; Some (VObj ms, r')
            end
          else match strip "true" (String c r) with
          | Some r' => Some (VBool true, r')
          | None =>
          match strip "false" (String c r) with
          | Some r' => Some (VBool false, r')
          | None =>
          match strip "null" (String c r) with
          | Some r' => Some (VNull, r')
          | None => number (String c r)
          end end end
      end
  end
with elements (fuel : nat) (s : string) : option (list jsval * string) :=
  match fuel with
  | O => None
  | S f =>
      '(v, r) ← value f s;
      let r := skip_ws r in
      match starts "," r with
      | Some r' => '(vs, r'') ← elements f r'; Some (v :: vs, r'')
      | None => match starts "]" r with
                | Some r' => Some ([v], r')
                | None => None
                end
      end
  end
with members (fuel : nat) (s : string) : option (list (string * jsval) * string) :=
  match fuel with
  | O => None
  | S f =>
      r0 ← starts dq (skip_ws s);
      '(k, r1) ← string_chars SNormal r0;
      r2 ← starts ":" (skip_ws r1);
      '(v, r3) ← value f r2;
      let r3 := skip_ws r3 in
      match starts "," r3 with
      | Some r' => '(ms, r'') ← members f r'; Some ((k, v) :: ms, r'')
      | None => match starts "}" r3 with
                | Some r' => Some ([(k, v)], r')
                | None => None
                end
      end
  end.

(** [JSON.parse(text)]: one value between optional white space, or a
    [SyntaxError].  A call chain of the parser reads a character at least
    every second call, so the fuel is never what stops it. *)
Definition parse (text : string) : outcome jsval :=
  match value (2 * String.length text + 2) text with
  | Some (v, r) =>
      match skip_ws r with
      | EmptyString => Ok v
      | _ => Throw SyntaxError
      end
  | None => Throw SyntaxError
  end.

End JSON.


(** ** The part assembler: [process] and [obj] *)

(** Whether the decimal [m·10^e] rounds to the double zero: it is zero, or
    at most half the least positive double [2^-1074]. *)
Definition rounds_to_zero (m : N) (e : Z) : bool :=
  (m =? 0)%N || ((e <? 0)%Z && (Z.of_N m * 2 ^ 1075 <=? 10 ^ (- e))%Z).

(** [ToBoolean]. *)
Definition truthy (v : jsval) : bool :=
  match v with
  | VNull => false
  | VBool b => b
  | VNum _ m e => negb (rounds_to_zero m e)
  | VStr s => negb (String.eqb s "")
  | VArr _ | VObj _ | VBuf _ => true
  end.

(** The descriptor [p] that the scanner hands to [process]. *)
Module RawPart.
Record t := mk {
  header : string;
  info : string;
  part : list byte;
  fieldInfo : string
}.
End RawPart.

(** [obj(str)]; [str] is [None] when the caller passes [undefined]. *)
Definition obj (str : option string) : outcome (gmap string jsval) :=
  match str with
  | None => Throw TypeError
  | Some str =>
      let k := JS.split "=" str in
      match k !! 0 with
      | None => Throw TypeError
      | Some k0 =>
          let a := JS.trim k0 in
          match k !! 1 with
          | None => Throw TypeError
          | Some k1 =>
              b ← JSON.parse (JS.trim k1);
              Ok {[ a := b ]}
          end
      end
  end.

(** The branch of [process] for a simple field: [fieldInfo] is not empty. *)
Definition process_field (header : list string) (part : RawPart.t)
  : outcome (gmap string jsval) :=
  field ← obj (header !! 1);
  Ok (<["data" := VStr (RawPart.fieldInfo part)]> field).

(** The rest of [process], for a file. *)
Definition process_file (header : list string) (part : RawPart.t)
  : outcome (gmap string jsval) :=
  file ← obj (header !! 2);
  fileField ← obj (header !! 1);
  let file :=
    match fileField !! "name" with
    | Some name => if truthy name then <["name" := name]> file else file
    | None => file
    end in
  match JS.split ":" (RawPart.info part) !! 1 with
  | None => Throw TypeError
  | Some t =>
      let contentType := JS.trim t in
      let file := <["type" := VStr contentType]> file in
      Ok (<["data" := VBuf (RawPart.part part)]> file)
  end.

Definition process (part : RawPart.t) : outcome (gmap string jsval) :=
  let header := JS.split ";" (RawPart.header part) in
  if negb (String.eqb (RawPart.fieldInfo part) "")
  then process_field header part
  else process_file header part.

(** ** The scanner: the loop of [parse] *)

(** [Buffer.prototype.toString()]. *)
Definition toString (b : list byte) : string := String.string_of_list_byte b.

(** [Array.prototype.slice(0, end)]. *)
Definition slice0 {A} (l : list A) (end_ : Z) : list A :=
  let len := Z.of_nat (length l) in
  let final := if (end_ <? 0)%Z then Z.max (len + end_) 0 else Z.min end_ len in
  take (Z.to_nat final) l.

(** The variables of [parse] that live across iterations; [prevByte] is
    [multipartBodyBuffer[i - 1]], [None] at [i = 0]. *)
Record scanner := mkScanner {
  lastline : list byte;
  header : string;
  info : string;
  state : nat;
  buffer : list byte;
  allParts : list (gmap string jsval);
  fieldInfo : string;
  prevByte : option byte
}.

Definition init : scanner :=
  {| lastline := []; header := ""; info := ""; state := 0; buffer := [];
     allParts := []; fieldInfo := ""; prevByte := None |}.

(** ['--' + boundary]. *)
Definition dashes (boundary : string) : string := "--" +:+ boundary.

(** The two tests on [oneByte] at the head of the loop body. *)
Definition newLineChar (oneByte : byte) : bool :=
  Byte.eqb oneByte x0a || Byte.eqb oneByte x0d.

Definition newLineDetected (prev : option byte) (oneByte : byte) : bool :=
  Byte.eqb oneByte x0a &&
  match prev with Some p => Byte.eqb p x0d | None => false end.

(** [lastline] after the first statement of the loop body. *)
Definition lastline1 (s : scanner) (oneByte : byte) : list byte :=
  if negb (newLineChar oneByte) then lastline s ++ [oneByte] else lastline s.

(** [lastline] in state 4 after the memory-saving reset. *)
Definition lastline2 (boundary : string) (s : scanner) (oneByte : byte) : list byte :=
  if String.length boundary + 4 <? length (lastline1 s oneByte)
  then [] else lastline1 s oneByte.

(** The descriptor [p] built in state 4 when the boundary is found. *)
Definition found_part (boundary : string) (s : scanner) (oneByte : byte) : RawPart.t :=
  let j := (Z.of_nat (length (buffer s))
            - Z.of_nat (length (lastline2 boundary s oneByte)))%Z in
  let part := slice0 (buffer s) (j - 1) in
  RawPart.mk (header s) (info s) part (fieldInfo s).

(** One iteration of the [for] loop of [parse], on the byte [oneByte]. *)
Definition step (boundary : string) (s : scanner) (oneByte : byte) : outcome scanner :=
  let nld := newLineDetected (prevByte s) oneByte in
  match state s, nld with
  | 0, true =>
      Ok {| lastline := [];
            header := header s; info := info s;
            state := if String.eqb (dashes boundary) (toString (lastline1 s oneByte))
                     then 1 else 0;
            buffer := buffer s; allParts := allParts s; fieldInfo := fieldInfo s;
            prevByte := Some oneByte |}
  | 1, true =>
      Ok {| lastline := [];
            header := toString (lastline1 s oneByte); info := info s;
            state := 2;
            buffer := buffer s; allParts := allParts s; fieldInfo := fieldInfo s;
            prevByte := Some oneByte |}
  | 2, true =>
      Ok {| lastline := [];
            header := header s; info := toString (lastline1 s oneByte);
            state := 3;
            buffer := buffer s; allParts := allParts s; fieldInfo := fieldInfo s;
            prevByte := Some oneByte |}
  | 3, true =>
      Ok {| lastline := [];
            header := header s; info := info s;
            state := 4;
            buffer := []; allParts := allParts s;
            fieldInfo := toString (lastline1 s oneByte);
            prevByte := Some oneByte |}
  | 4, _ =>
      if String.eqb (dashes boundary) (toString (lastline2 boundary s oneByte)) then
        r ← process (found_part boundary s oneByte);
        Ok {| lastline := [];
              header := ""; info := "";
              state := 5;
              buffer := []; allParts := allParts s ++ [r]; fieldInfo := fieldInfo s;
              prevByte := Some oneByte |}
      else
        Ok {| lastline := if nld then [] else lastline2 boundary s oneByte;
              header := header s; info := info s;
              state := 4;
              buffer := buffer s ++ [oneByte]; allParts := allParts s;
              fieldInfo := fieldInfo s;
              prevByte := Some oneByte |}
  | 5, true =>
      Ok {| lastline := lastline1 s oneByte;
            header := header s; info := info s;
            state := 1;
            buffer := buffer s; allParts := allParts s; fieldInfo := fieldInfo s;
            prevByte := Some oneByte |}
  | _, _ =>
      Ok {| lastline := lastline1 s oneByte;
            header := header s; info := info s;
            state := state s;
            buffer := buffer s; allParts := allParts s; fieldInfo := fieldInfo s;
            prevByte := Some oneByte |}
  end.

(** The loop from a scanner state over the bytes that remain. *)
Fixpoint run (boundary : string) (s : scanner) (bytes : list byte) : outcome scanner :=
  match bytes with
  | [] => Ok s
  | oneByte :: rest => s' ← step boundary s oneByte; run boundary s' rest
  end.

Definition parse (multipartBodyBuffer : list byte) (boundary : string)
  : outcome (list (gmap string jsval)) :=
  s ← run boundary init multipartBodyBuffer;
  Ok (allParts s).

(** ** [getBoundary] *)

Fixpoint getBoundary_loop (items : list string) : string :=
  match items with
  | [] => ""
  | it :: rest =>
      let item := JS.trim (JS.to_str (Some it)) in
      if (0 <=? JS.indexOf "boundary" item)%Z then
        let k := JS.split "=" item in
        JS.trim (JS.to_str (k !! 1))
      else getBoundary_loop rest
  end.

Definition getBoundary (header : string) : string :=
  let items := JS.split ";" header in
  getBoundary_loop items.

(** ** The middleware: [mapFormData] and the request handler

    The handler reads [req.headers['content-type']] and [req.body], and
    sets [req.files] and [req.fields]; these four make the request of the
    model.  [req.files] and [req.fields] are plain objects, given by their
    own properties, and two different objects; an array that one of them
    holds is held under one name only.  What [isObject] tells apart is
    modelled by [option]: [None] stands for a value that is not an object.
    The branch under [options.dest], which writes the files to disk, is
    not part of the model. *)

(** What a property of [req.files] or [req.fields] holds: [undefined], a
    value such as [part.data], a part, the member that the object inherits
    from [Object.prototype] under that name, or an array of these. *)
Inductive dval :=
| DUndefined
| DVal (v : jsval)
| DPart (part : gmap string jsval)
| DInherited (name : string)
| DArr (items : list dval).

(** The names of the properties of [Object.prototype], which every plain
    object inherits. *)
Definition Object_prototype : list string :=
  ["constructor"; "__defineGetter__"; "__defineSetter__"; "hasOwnProperty";
   "__lookupGetter__"; "__lookupSetter__"; "isPrototypeOf";
   "propertyIsEnumerable"; "toString"; "valueOf"; "__proto__";
   "toLocaleString"].

(** [Array.isArray(d)], with the elements of the array. *)
Definition isArray (d : dval) : option (list dval) :=
  match d with
  | DArr l => Some l
  | DVal (VArr l) => Some (map DVal l)
  | _ => None
  end.

(** [ToBoolean] on what a property holds. *)
Definition dtruthy (d : dval) : bool :=
  match d with
  | DUndefined => false
  | DVal v => truthy v
  | DPart _ | DInherited _ | DArr _ => true
  end.

(** Whether a property of a part is there and truthy: [part.name],
    [part.filename]. *)
Definition prop_truthy (x : option jsval) : bool :=
  match x with
  | Some v => truthy v
  | None => false
  end.

Module Request.
Record t := mk {
  content_type : option string;
  body : list byte;
  files : option (gmap string dval);
  fields : option (gmap string dval)
}.
End Request.

Section Middleware.

(** The conversion of a value to a property key, [ToPropertyKey] of the
    language.  On a string it is the string itself; on an object it calls
    the [toString] and [valueOf] of the object and raises a [TypeError]
    when neither gives a primitive value, as for a name that
    [JSON.parse] read from [{"toString":1}]. *)
Variable ToString : jsval → outcome string.

(** The property key [part.name], or the exception of its conversion. *)
Definition part_key (part : gmap string jsval) : outcome string :=
  match part !! "name" with
  | Some v => ToString v
  | None => Ok "undefined"
  end.

(** [asFile ? part : part.data]. *)
Definition partData (part : gmap string jsval) (asFile : bool) : dval :=
  if asFile then DPart part
  else match part !! "data" with
       | Some v => DVal v
       | None => DUndefined
       end.

(** [mapFormData(destination, part, asFile)]: the exception that the
    conversion of [part.name] to a key raises at the first
    [destination[part.name]], or the own properties of [destination]
    afterwards.  A name that [destination] does not have is read from
    [Object.prototype]; the members there are functions, truthy and no
    arrays, and the assignment shadows them.  [Ok None] is the one case
    left out: [__proto__] read from the prototype, where the assignment
    replaces the prototype of [destination]. *)
Definition mapFormData (destination : gmap string dval)
    (part : gmap string jsval) (asFile : bool)
  : outcome (option (gmap string dval)) :=
  name ← part_key part;
  Ok (match destination !! name with
      | Some d =>
          match isArray d with
          | Some l => Some (<[name := DArr (l ++ [partData part asFile])]> destination)
          | None =>
              if negb (dtruthy d)
              then Some (<[name := partData part asFile]> destination)
              else Some (<[name := DArr [d; partData part asFile]]> destination)
          end
      | None =>
          if bool_decide (name ∈ Object_prototype) then
            if String.eqb name "__proto__" then None
            else Some (<[name := DArr [DInherited name; partData part asFile]]>
                         destination)
          else Some (<[name := partData part asFile]> destination)
      end).

(** The callback of the first [parts.forEach], on the pair of [req.files]
    and [req.fields]. *)
Definition place (acc : gmap string dval * gmap string dval)
    (part : gmap string jsval)
  : outcome (option (gmap string dval * gmap string dval)) :=
  if negb (prop_truthy (part !! "name")) then Ok (Some acc)
  else if prop_truthy (part !! "filename")
  then r ← mapFormData acc.1 part true; Ok (files ← r; Some (files, acc.2))
  else r ← mapFormData acc.2 part false; Ok (fields ← r; Some (acc.1, fields)).

Fixpoint forEach_place (acc : gmap string dval * gmap string dval)
    (parts : list (gmap string jsval))
  : outcome (option (gmap string dval * gmap string dval)) :=
  match parts with
  | [] => Ok (Some acc)
  | part :: rest =>
      r ← place acc part;
      match r with
      | Some acc' => forEach_place acc' rest
      | None => Ok None
      end
  end.

(** The handler that [middleware(options)] returns, for [options] without
    [dest]: the exception that it throws (of [getBoundary] on a missing
    header, of [parse], or of the key conversion in [mapFormData]), or the
    request as it is when [next()] is called; [Ok None] when [mapFormData]
    has left the model.  The array that [parse] returns is truthy, so the
    early [return next()] is never taken. *)
Definition middleware (req : Request.t) : outcome (option Request.t) :=
  match Request.content_type req with
  | None => Throw TypeError
  | Some contentType =>
      let boundary := getBoundary contentType in
      parts ← parse (Request.body req) boundary;
      let files := default ∅ (Request.files req) in
      let fields := default ∅ (Request.fields req) in
      r ← forEach_place (files, fields) parts;
      Ok (acc ← r;
          Some (Request.mk (Request.content_type req) (Request.body req)
                  (Some acc.1) (Some acc.2)))
  end.

End Middleware.

(** ** Vocabulary of the statements *)

Definition CRLF : list byte := [x0d; x0a].

(** The bytes of a 7-bit string. *)
Definition bytes (s : string) : list byte := String.list_byte_of_string s.

(** The boundary line ['--' + boundary] as bytes. *)
Definition delim (boundary : string) : list byte := bytes (dashes boundary).

(** A byte that [lastline] takes in: neither CR nor LF. *)
Definition is_visible (x : byte) : Prop := newLineChar x = false.

(** The bytes of [l] that [lastline] takes in. *)
Definition visible (l : list byte) : list byte :=
  List.filter (λ x, negb (newLineChar x)) l.

(** [p] occurs in [l] as a run of adjacent elements. *)
Definition infix {A} (p l : list A) : Prop := ∃ a c, l = a ++ p ++ c.

Fixpoint prefixb (p l : list byte) : bool :=
  match p, l with
  | [], _ => true
  | x :: p', y :: l' => Byte.eqb x y && prefixb p' l'
  | _ :: _, [] => false
  end.

Fixpoint infixb (p l : list byte) : bool :=
  prefixb p l || match l with [] => false | _ :: l' => infixb p l' end.

(** [prevByte] after reading [l]. *)
Definition last_byte (p : option byte) (l : list byte) : option byte :=
  match last l with Some x => Some x | None => p end.

(** [pat] occurs in the string [s]. *)
Definition has_sub (pat s : string) : Prop := ∃ a c, s = a +:+ pat +:+ c.

Fixpoint all_chars (P : ascii → bool) (s : string) : bool :=
  match s with
  | EmptyString => true
  | String c r => P c && all_chars P r
  end.

Definition is_not (sep : ascii) (c : ascii) : bool := negb (Ascii.eqb c sep).

(** A printable 7-bit character other than the quote, the backslash, [;]
    and [=]: what a parameter value of a header line is made of. *)
Definition is_plain (c : ascii) : bool :=
  let n := nat_of_ascii c in
  (32 <=? n) && (n <? 127) &&
  negb ((n =? 34) || (n =? 92) || (n =? 59) || (n =? 61)).

(** A 7-bit character other than CR and LF. *)
Definition is_text (c : ascii) : bool :=
  let n := nat_of_ascii c in (n <? 128) && negb ((n =? 10) || (n =? 13)).

Definition is_7bit (c : ascii) : bool := nat_of_ascii c <? 128.

Definition is_line_char (c : ascii) : bool := negb (newLineChar (byte_of_ascii c)).

Definition plain (s : string) : Prop := all_chars is_plain s = true.
Definition text (s : string) : Prop := all_chars is_text s = true.
Definition seven_bit (s : string) : Prop := all_chars is_7bit s = true.

(** A string whose bytes are all taken into [lastline]. *)
Definition line (s : string) : Prop := Forall is_visible (bytes s).

(** *** Bodies *)

(** What lies between two boundary lines: a simple field (header line,
    blank line, value line) or a file (header line, info line, blank line,
    payload, line break). *)
Inductive segment :=
| TextSeg (header value : string)
| FileSeg (header info : string) (payload : list byte).

Definition encode_segment (g : segment) : list byte :=
  match g with
  | TextSeg h v => bytes h ++ CRLF ++ CRLF ++ bytes v ++ CRLF
  | FileSeg h i p => bytes h ++ CRLF ++ bytes i ++ CRLF ++ CRLF ++ p ++ CRLF
  end.

(** What follows a boundary line: the closing [--], or a line break, a
    segment and the next boundary line. *)
Fixpoint encode_rest (b : string) (gs : list segment) : list byte :=
  match gs with
  | [] => bytes "--" ++ CRLF
  | g :: r => CRLF ++ encode_segment g ++ delim b ++ encode_rest b r
  end.

Definition encode (b : string) (gs : list segment) : list byte :=
  delim b ++ encode_rest b gs.

(** The descriptor that the scanner builds for a segment.  For a simple
    field the boundary line is read in state 4 into an empty [buffer], and
    [slice] cuts its last three bytes off. *)
Definition raw_of (b : string) (g : segment) : RawPart.t :=
  match g with
  | TextSeg h v => RawPart.mk h "" (take (String.length b - 1) (delim b)) v
  | FileSeg h i p => RawPart.mk h i p ""
  end.

Definition wf_segment (b : string) (g : segment) : Prop :=
  match g with
  | TextSeg h v => line h ∧ line v
  | FileSeg h i p => line h ∧ line i ∧ ¬ infix (delim b) (visible p)
  end.

(** *** Form entries with the usual header lines *)

Definition quote (s : string) : string := String dq (s +:+ String dq "").

Definition param (key value : string) : string :=
  " " +:+ key +:+ "=" +:+ quote value.

Inductive entry :=
| TextField (name value : string)
| FileField (name filename type : string) (payload : list byte).

Definition disposition (e : entry) : string :=
  match e with
  | TextField n _ =>
      "Content-Disposition: form-data" +:+ ";" +:+ param "name" n
  | FileField n f _ _ =>
      "Content-Disposition: form-data" +:+ ";" +:+ param "name" n
        +:+ ";" +:+ param "filename" f
  end.

Definition content_type (t : string) : string :=
  "Content-Type" +:+ ":" +:+ " " +:+ t.

Definition segment_of (e : entry) : segment :=
  match e with
  | TextField n v => TextSeg (disposition e) v
  | FileField n f t p => FileSeg (disposition e) (content_type t) p
  end.

Definition expected_part (e : entry) : gmap string jsval :=
  match e with
  | TextField n v => {[ "name" := VStr n; "data" := VStr v ]}
  | FileField n f t p =>
      {[ "name" := VStr n; "filename" := VStr f; "type" := VStr t;
         "data" := VBuf p ]}
  end.

Definition entry_data (e : entry) : jsval :=
  match e with
  | TextField _ v => VStr v
  | FileField _ _ _ p => VBuf p
  end.

Definition wf_entry (b : string) (e : entry) : Prop :=
  match e with
  | TextField n v => plain n ∧ text v ∧ v ≠ ""
  | FileField n f t p =>
      plain n ∧ n ≠ "" ∧ plain f ∧
      text t ∧ all_chars (is_not ":") t = true ∧ JS.trim t = t ∧
      ¬ infix (delim b) (visible p)
  end.

(** *** Scanner states and header segments *)

(** [s'] is [s] after the boundary was found and [r] was pushed. *)
Definition found (s : scanner) (r : gmap string jsval) (s' : scanner) : Prop :=
  state s' = 5 ∧ lastline s' = [] ∧ allParts s' = allParts s ++ [r].

(** The scanner state just after a boundary line: the opening one, read in
    state 0, or one that closed a part. *)
Definition after_delim (b : string) (s : scanner) : Prop :=
  (state s = 0 ∧ lastline s = delim b) ∨ (state s = 5 ∧ lastline s = []).

(** A value that opens with a quote and is not one string literal. *)
Definition not_literal (t : string) : Prop :=
  ∃ r, t = String dq r ∧
       ∀ str, JSON.string_chars JSON.SNormal r ≠ Some (str, "").


(** *** Runs of the scanner *)

(** The byte before the current one, as a list. *)
Definition prev_list (s : scanner) : list byte :=
  match prevByte s with
  | Some p => [p]
  | None => []
  end.

(** What the scanner keeps within bounds: the state, the candidate line in
    state 4, and [buffer] outside state 4. *)
Definition bounded (b : string) (s : scanner) : Prop :=
  state s ≤ 5 ∧
  (state s = 4 → length (lastline s) ≤ String.length b + 4) ∧
  (state s ≠ 4 → buffer s = []).

(** *** The scanner without the reset of the candidate line

    The scanner as it would be without the lines under [mem save], which
    empty the candidate line in state 4 when it is longer than the boundary
    plus 4; everything else is [step].  It is what the emitted bodies are
    compared with. *)
Definition found_part_no_reset (s : scanner) (oneByte : byte) : RawPart.t :=
  let j := (Z.of_nat (length (buffer s))
            - Z.of_nat (length (lastline1 s oneByte)))%Z in
  RawPart.mk (header s) (info s) (slice0 (buffer s) (j - 1)) (fieldInfo s).

Definition step_no_reset (boundary : string) (s : scanner) (oneByte : byte)
  : outcome scanner :=
  match state s with
  | 4 =>
      if String.eqb (dashes boundary) (toString (lastline1 s oneByte)) then
        r ← process (found_part_no_reset s oneByte);
        Ok {| lastline := [];
              header := ""; info := "";
              state := 5;
              buffer := []; allParts := allParts s ++ [r]; fieldInfo := fieldInfo s;
              prevByte := Some oneByte |}
      else
        Ok {| lastline := if newLineDetected (prevByte s) oneByte then []
                          else lastline1 s oneByte;
              header := header s; info := info s;
              state := 4;
              buffer := buffer s ++ [oneByte]; allParts := allParts s;
              fieldInfo := fieldInfo s;
              prevByte := Some oneByte |}
  | _ => step boundary s oneByte
  end.

Fixpoint run_no_reset (boundary : string) (s : scanner) (bytes : list byte)
  : outcome scanner :=
  match bytes with
  | [] => Ok s
  | oneByte :: rest =>
      s' ← step_no_reset boundary s oneByte; run_no_reset boundary s' rest
  end.

Definition parse_no_reset (multipartBodyBuffer : list byte) (boundary : string)
  : outcome (list (gmap string jsval)) :=
  s ← run_no_reset boundary init multipartBodyBuffer; Ok (allParts s).

(** What every returned part has: the value of a simple field as a
    non-empty string, or the payload as a Buffer next to a [type]. *)
Definition has_data (r : gmap string jsval) : Prop :=
  (∃ v, v ≠ "" ∧ r !! "data" = Some (VStr v)) ∨
  (∃ p t, r !! "data" = Some (VBuf p) ∧ r !! "type" = Some (VStr t)).

(** *** More bodies and header lines *)

(** A body up to its last boundary line: without the closing [--]. *)
Fixpoint encode_open_rest (b : string) (gs : list segment) : list byte :=
  match gs with
  | [] => []
  | g :: r => CRLF ++ encode_segment g ++ delim b ++ encode_open_rest b r
  end.

Definition encode_open (b : string) (gs : list segment) : list byte :=
  delim b ++ encode_open_rest b gs.

(** The exception for a [;] or a [=] in the name of a file: at a [;] the
    third segment of the header line has no [=]. *)
Definition name_cut_error (c : ascii) : error :=
  if Ascii.eqb c ";" then TypeError else SyntaxError.

(** A file part whose header block has one more line [x] before the blank
    line. *)
Definition encode_three_lines (h i x : string) (p : list byte) : list byte :=
  bytes h ++ CRLF ++ bytes i ++ CRLF ++ bytes x ++ CRLF ++ CRLF ++ p ++ CRLF.

(** The header line of a file with [filename] before [name]. *)
Definition disposition_swapped (n f : string) : string :=
  "Content-Disposition: form-data" +:+ ";" +:+ param "filename" f
    +:+ ";" +:+ param "name" n.

(** A header line and an info line with any text [h0] for
    [Content-Disposition: form-data] and any name [i0] for
    [Content-Type]. *)
Definition disposition_as (h0 : string) (e : entry) : string :=
  match e with
  | TextField n _ => h0 +:+ ";" +:+ param "name" n
  | FileField n f _ _ => h0 +:+ ";" +:+ param "name" n +:+ ";" +:+ param "filename" f
  end.

Definition info_as (i0 t : string) : string := i0 +:+ ":" +:+ " " +:+ t.

Definition segment_as (h0 i0 : string) (e : entry) : segment :=
  match e with
  | TextField n v => TextSeg (disposition_as h0 e) v
  | FileField n f t p => FileSeg (disposition_as h0 e) (info_as i0 t) p
  end.

(** A string that does not begin with white space. *)
Definition starts_solid (s : string) : Prop :=
  match s with
  | "" => True
  | String c _ => JS.is_space c = false
  end.

(** The content-type header value that announces the boundary [t] after
    the media type and parameters [m], with [post] after it. *)
Definition with_boundary (m t post : string) : string :=
  m +:+ ";" +:+ " boundary=" +:+ t +:+ post.

(** *** What the handler stores *)

Definition entry_name (e : entry) : string :=
  match e with
  | TextField n _ | FileField n _ _ _ => n
  end.

(** An entry that the handler takes for an upload: a file with a
    filename. *)
Definition is_upload (e : entry) : bool :=
  match e with
  | TextField _ _ => false
  | FileField _ f _ _ => negb (String.eqb f "")
  end.

(** The entries that go to [req.files] ([asFile]) or to [req.fields] under
    the name [k]; an entry without a name goes nowhere. *)
Definition entries_under (asFile : bool) (k : string) (es : list entry) : list entry :=
  List.filter (λ e, negb (String.eqb (entry_name e) "") &&
                    Bool.eqb (is_upload e) asFile &&
                    String.eqb (entry_name e) k) es.

(** [part] is stored in [req.files] ([asFile]) or in [req.fields], under
    [k]. *)
Definition stored_in (ToString : jsval → outcome string) (asFile : bool)
    (k : string) (part : gmap string jsval) : bool :=
  prop_truthy (part !! "name") &&
  Bool.eqb (prop_truthy (part !! "filename")) asFile &&
  match part_key ToString part with
  | Ok key => String.eqb key k
  | Throw _ => false
  end.

(** What the parts stored under [k] contribute, in order. *)
Definition values_under (ToString : jsval → outcome string) (asFile : bool)
    (k : string) (parts : list (gmap string jsval)) : list dval :=
  map (λ part, partData part asFile) (List.filter (stored_in ToString asFile k) parts).

(** One value as it is, several as an array. *)
Definition collect (vs : list dval) : option dval :=
  match vs with
  | [] => None
  | [v] => Some v
  | _ => Some (DArr vs)
  end.

(** What a property [k] that was absent holds once [vs] were stored under
    it: a member inherited under that name comes first. *)
Definition held (k : string) (vs : list dval) : option dval :=
  match vs with
  | [] => None
  | _ => collect ((if bool_decide (k ∈ Object_prototype)
                   then [DInherited k] else []) ++ vs)
  end.

(** A value that is truthy and not an array. *)
Definition solid (v : dval) : Prop := dtruthy v = true ∧ isArray v = None.

(** A part whose name, when it is truthy, converts to a property key, and
    to another one than [__proto__]. *)
Definition keyed (ToString : jsval → outcome string) (part : gmap string jsval)
  : Prop :=
  prop_truthy (part !! "name") = true →
  ∃ key, part_key ToString part = Ok key ∧ key ≠ "__proto__".

(** A part that [mapFormData] can take: it is [keyed], and what goes to
    [req.fields] is truthy and not an array. *)
Definition mappable (ToString : jsval → outcome string)
    (part : gmap string jsval) : Prop :=
  prop_truthy (part !! "name") = true →
  (∃ key, part_key ToString part = Ok key ∧ key ≠ "__proto__") ∧
  (prop_truthy (part !! "filename") = false → solid (partData part false)).

(** [req.files] or [req.fields] of a pair. *)
Definition side (asFile : bool) (acc : gmap string dval * gmap string dval)
  : gmap string dval := if asFile then acc.1 else acc.2.

(** *** Test data *)

(** The header line of the field [foo] and that of the file [upload]. *)
Definition foo_header : string :=
  "Content-Disposition: form-data; name=" +:+ quote "foo".

Definition upload_header : string :=
  "Content-Disposition: form-data; name=" +:+ quote "upload"
    +:+ "; filename=" +:+ quote "a.txt".

Definition two_entries : list entry :=
  [ TextField "foo" "bar";
    FileField "upload" "a.txt" "text/plain" (bytes "hello") ].

(** The body of [two_entries] with the boundary [XyZ], written out. *)
Definition body1 : list byte :=
  bytes "--XyZ" ++ CRLF ++
  bytes foo_header ++ CRLF ++
  CRLF ++
  bytes "bar" ++ CRLF ++
  bytes "--XyZ" ++ CRLF ++
  bytes upload_header ++ CRLF ++
  bytes "Content-Type: text/plain" ++ CRLF ++
  CRLF ++
  bytes "hello" ++ CRLF ++
  bytes "--XyZ--" ++ CRLF.

(** [body1] cut inside the payload of its second part: what comes before
    the header line of that part, and what is left of the part. *)
Definition body1_first : list byte :=
  bytes "--XyZ" ++ CRLF ++
  bytes foo_header ++ CRLF ++
  CRLF ++
  bytes "bar" ++ CRLF ++
  bytes "--XyZ" ++ CRLF.

Definition body1_cut : list byte :=
  bytes upload_header ++ CRLF ++
  bytes "Content-Type: text/plain" ++ CRLF ++
  CRLF ++
  bytes "hel".



(** A simple field whose value has two lines. *)
Definition two_lines : list byte := bytes "line1" ++ CRLF ++ bytes "line2".

Definition body_two_lines : list byte :=
  bytes "--XyZ" ++ CRLF ++
  bytes foo_header ++ CRLF ++
  CRLF ++
  two_lines ++ CRLF ++
  bytes "--XyZ--" ++ CRLF.

(** File payloads that hold the bytes of the boundary line [--XyZ]: with a
    lone LF among them, and right after eight bytes of a line. *)
Definition payload_lone_LF : list byte := bytes "--" ++ [x0a] ++ bytes "XyZ rest".

Definition payload_long_line : list byte := bytes "12345678--XyZtail".

(** A body in which a lone LF splits every boundary line. *)
Definition body_split_boundary : list byte :=
  bytes "-" ++ [x0a] ++ bytes "-XyZ" ++ CRLF ++
  bytes foo_header ++ CRLF ++
  CRLF ++
  bytes "bar" ++ CRLF ++
  bytes "-" ++ [x0a] ++ bytes "-XyZ--" ++ CRLF.

(** The body of one file whose payload is [payload_long_line]. *)
Definition body_long_line : list byte :=
  encode "XyZ"
    [segment_of (FileField "upload" "a.txt" "text/plain" payload_long_line)].

(** A field whose header line has no [=] after [name], up to the byte
    before the last one of the closing boundary line, and the scanner
    there. *)
Definition bad_name_header : string :=
  "Content-Disposition: form-data; name" +:+ quote "foo".

Definition bad_name_pre : list byte :=
  bytes "--XyZ" ++ CRLF ++
  bytes bad_name_header ++ CRLF ++
  CRLF ++
  bytes "bar" ++ CRLF ++
  bytes "--Xy".

Definition bad_name_state : scanner :=
  {| lastline := bytes "--Xy"; header := bad_name_header;
     info := ""; state := 4; buffer := bytes "--Xy"; allParts := [];
     fieldInfo := "bar"; prevByte := Some "y"%byte |}.




(** The same for the field [foo] with an empty value. *)
Definition empty_value_pre : list byte :=
  bytes "--XyZ" ++ CRLF ++
  bytes foo_header ++ CRLF ++
  CRLF ++
  CRLF ++
  bytes "--Xy".

Definition empty_value_state : scanner :=
  {| lastline := bytes "--Xy"; header := foo_header;
     info := ""; state := 4; buffer := bytes "--Xy"; allParts := [];
     fieldInfo := ""; prevByte := Some "y"%byte |}.

(** [body1] with bare LF for every line break. *)
Definition body1_LF : list byte :=
  bytes "--XyZ" ++ [x0a] ++
  bytes foo_header ++ [x0a] ++
  [x0a] ++
  bytes "bar" ++ [x0a] ++
  bytes "--XyZ--" ++ [x0a].

(** The parts of [body1]. *)
Definition parts1 : list (gmap string jsval) := map expected_part two_entries.

(** The key conversion of the examples, which convert strings only: a
    string is its own key. *)
Definition string_key (v : jsval) : outcome string :=
  match v with
  | VStr s => Ok s
  | _ => Throw TypeError
  end.

(** A request with [body1], and one that has a field already. *)
Definition form_request : Request.t :=
  Request.mk (Some "multipart/form-data; boundary=XyZ") body1 None None.

Definition session_request : Request.t :=
  Request.mk (Some "multipart/form-data; boundary=XyZ") body1 None
    (Some {[ "user" := DVal (VStr "ann") ]}).

Definition session_request_done : Request.t :=
  Request.mk (Some "multipart/form-data; boundary=XyZ") body1
    (Some {[ "upload" := DPart {[ "name" := VStr "upload";
                                  "filename" := VStr "a.txt";
                                  "type" := VStr "text/plain";
                                  "data" := VBuf (bytes "hello") ]} ]})
    (Some {[ "user" := DVal (VStr "ann"); "foo" := DVal (VStr "bar") ]}).

(** A form with a field named like a member of [Object.prototype]. *)
Definition toString_entries : list entry := [ TextField "toString" "1" ].

Definition toString_request : Request.t :=
  Request.mk (Some "multipart/form-data; boundary=XyZ")
    (encode "XyZ" (map segment_of toString_entries)) None None.

(** * Lemmas

    ** Bytes and strings *)

Lemma toString_bytes s : toString (bytes s) = s.
Proof. apply String.string_of_list_byte_of_string. Qed.

Lemma bytes_toString l : bytes (toString l) = l.
Proof. apply String.list_byte_of_string_of_list_byte. Qed.

Lemma bytes_app s t : bytes (s +:+ t) = bytes s ++ bytes t.
Proof.
  unfold bytes, String.list_byte_of_string.
  induction s as [|c s IH]; simpl; [done|]. by rewrite IH.
Qed.

Lemma bytes_length s : length (bytes s) = String.length s.
Proof.
  unfold bytes, String.list_byte_of_string.
  induction s as [|c s IH]; simpl; [done|]. by rewrite IH.
Qed.

Lemma eqb_toString d l : String.eqb d (toString l) = true ↔ l = bytes d.
Proof.
  rewrite String.eqb_eq. split.
  - intros ->. by rewrite bytes_toString.
  - intros ->. by rewrite toString_bytes.
Qed.

Lemma run_app b s l1 l2 :
  run b s (l1 ++ l2) = s' ← run b s l1; run b s' l2.
Proof.
  revert s. induction l1 as [|x l1 IH]; intros s; simpl; [done|].
  destruct (step b s x) as [s1|e]; simpl; [apply IH|done].
Qed.

Lemma str_app_nil t : "" +:+ t = t.
Proof. reflexivity. Qed.

Lemma str_app_cons c s t : String c s +:+ t = String c (s +:+ t).
Proof. reflexivity. Qed.

Lemma str_length_app s t :
  String.length (s +:+ t) = String.length s + String.length t.
Proof.
  induction s as [|c s IH]; [done|].
  rewrite str_app_cons. simpl. by rewrite IH.
Qed.

(** ** Steps of the scanner *)

Lemma visible_app l1 l2 : visible (l1 ++ l2) = visible l1 ++ visible l2.
Proof. apply List.filter_app. Qed.

Lemma lastline1_visible s x : lastline1 s x = lastline s ++ visible [x].
Proof.
  unfold lastline1, visible. simpl.
  destruct (newLineChar x); simpl; [by rewrite app_nil_r|done].
Qed.

Lemma delim_length b : length (delim b) = String.length b + 2.
Proof. unfold delim, dashes. rewrite bytes_length, str_length_app. simpl. lia. Qed.

Lemma delim_not_nil b : delim b ≠ [].
Proof. intros H. apply (f_equal length) in H. rewrite delim_length in H. simpl in H. lia. Qed.

Lemma infix_app_r {A} (p l1 l2 : list A) : infix p l2 → infix p (l1 ++ l2).
Proof. intros (a & c & ->). exists (l1 ++ a), c. by rewrite <-app_assoc. Qed.

Lemma infix_prefix {A} (p l : list A) : infix p (p ++ l).
Proof. by exists [], l. Qed.

Lemma lastline2_cases b s x :
  lastline2 b s x = [] ∨ lastline2 b s x = lastline1 s x.
Proof. unfold lastline2. destruct (_ <? _); auto. Qed.

Lemma step_found b s x :
  state s = 4 → lastline2 b s x = delim b →
  step b s x =
    r ← process (found_part b s x);
    Ok {| lastline := []; header := ""; info := ""; state := 5; buffer := [];
          allParts := allParts s ++ [r]; fieldInfo := fieldInfo s;
          prevByte := Some x |}.
Proof.
  intros Hst Hd. unfold step. rewrite Hst.
  assert (String.eqb (dashes b) (toString (lastline2 b s x)) = true) as ->
    by by apply eqb_toString.
  done.
Qed.

Lemma step_body b s x :
  state s = 4 → lastline2 b s x ≠ delim b →
  step b s x =
    Ok {| lastline := if newLineDetected (prevByte s) x then [] else lastline2 b s x;
          header := header s; info := info s; state := 4;
          buffer := buffer s ++ [x]; allParts := allParts s;
          fieldInfo := fieldInfo s; prevByte := Some x |}.
Proof.
  intros Hst Hd. unfold step. rewrite Hst.
  destruct (String.eqb _ _) eqn:E.
  - by apply eqb_toString in E.
  - done.
Qed.

Lemma step_other b s x :
  state s ≠ 4 → newLineDetected (prevByte s) x = false →
  step b s x =
    Ok {| lastline := lastline1 s x; header := header s; info := info s;
          state := state s; buffer := buffer s; allParts := allParts s;
          fieldInfo := fieldInfo s; prevByte := Some x |}.
Proof.
  intros Hst Hn. unfold step. rewrite Hn.
  destruct (state s) as [|[|[|[|[|[|n]]]]]]; done.
Qed.

(** A step that does not find the boundary keeps the emitted parts and
    leaves a candidate line that ends the previous one. *)
Lemma step_quiet b s x :
  state s ≠ 4 ∨ lastline2 b s x ≠ delim b →
  ∃ s1, step b s x = Ok s1 ∧ allParts s1 = allParts s ∧
        lastline s1 `suffix_of` lastline1 s x.
Proof.
  intros H. destruct (decide (state s = 4)) as [H4|H4].
  - destruct H as [?|H]; [done|]. rewrite (step_body b s x H4 H).
    eexists; split; [done|]. split; [done|]. simpl.
    destruct (newLineDetected _ _); [apply suffix_nil|].
    destruct (lastline2_cases b s x) as [->| ->]; [apply suffix_nil|done].
  - unfold step.
    destruct (newLineDetected _ _) eqn:E,
      (state s) as [|[|[|[|[|[|n]]]]]] eqn:Es; try done;
      eexists; (split; [done|]); (split; [done|]); simpl;
      try done; apply suffix_nil.
Qed.

Lemma run_quiet b rest : ∀ s,
  ¬ infix (delim b) (lastline s ++ visible rest) →
  ∃ s', run b s rest = Ok s' ∧ allParts s' = allParts s ∧
        lastline s' `suffix_of` (lastline s ++ visible rest).
Proof.
  induction rest as [|x rest IH]; intros s Hn.
  - exists s. simpl. rewrite app_nil_r. done.
  - change (x :: rest) with ([x] ++ rest) in Hn.
    rewrite visible_app, app_assoc, <-lastline1_visible in Hn.
    destruct (step_quiet b s x) as (s1 & Hs & Hp & [pre Hl]).
    { right. destruct (lastline2_cases b s x) as [->| ->].
      - intros H. by eapply delim_not_nil.
      - intros H. apply Hn. rewrite H. apply infix_prefix. }
    destruct (IH s1) as (s' & Hr & Hp' & [pre' Hl']).
    { intros Hi. apply Hn. rewrite Hl, <-app_assoc. by apply infix_app_r. }
    exists s'. split; [|split; [congruence|]].
    { change (run b s (x :: rest)) with (s1 ← step b s x; run b s1 rest).
      by rewrite Hs. }
    change (x :: rest) with ([x] ++ rest).
    rewrite visible_app, app_assoc, <-lastline1_visible, Hl, <-app_assoc, Hl'.
    exists (pre ++ pre'). by rewrite <-app_assoc.
Qed.

(** ** State 4: the body and the boundary line *)

Lemma last_byte_cons p x l : last_byte p (x :: l) = last_byte (Some x) l.
Proof.
  unfold last_byte. destruct l as [|y l]; [done|].
  change (last (x :: y :: l)) with (last (y :: l)).
  destruct (last (y :: l)) eqn:E; [done|]. by apply last_None in E.
Qed.

Lemma last_byte_snoc p l x : last_byte p (l ++ [x]) = Some x.
Proof. unfold last_byte. by rewrite last_snoc. Qed.

Lemma visible_not_nld p x : is_visible x → newLineDetected p x = false.
Proof.
  unfold is_visible, newLineChar, newLineDetected.
  destruct (Byte.eqb x x0a); [done|done].
Qed.

Lemma lastline1_vis s x : is_visible x → lastline1 s x = lastline s ++ [x].
Proof. unfold lastline1, is_visible. by intros ->. Qed.

(** In state 4, bytes that do not complete the boundary pile up in
    [buffer]; nothing else changes. *)
Lemma run_body_quiet b rest : ∀ s,
  state s = 4 →
  ¬ infix (delim b) (lastline s ++ visible rest) →
  ∃ s', run b s rest = Ok s' ∧ state s' = 4 ∧
        buffer s' = buffer s ++ rest ∧
        header s' = header s ∧ info s' = info s ∧
        fieldInfo s' = fieldInfo s ∧ allParts s' = allParts s ∧
        prevByte s' = last_byte (prevByte s) rest ∧
        lastline s' `suffix_of` (lastline s ++ visible rest).
Proof.
  induction rest as [|x rest IH]; intros s H4 Hn.
  - exists s. simpl. rewrite !app_nil_r. by repeat split.
  - change (x :: rest) with ([x] ++ rest) in Hn.
    rewrite visible_app, app_assoc, <-lastline1_visible in Hn.
    assert (lastline2 b s x ≠ delim b) as Hd.
    { destruct (lastline2_cases b s x) as [->| ->].
      - intros H. by eapply delim_not_nil.
      - intros H. apply Hn. rewrite H. apply infix_prefix. }
    pose proof (step_body b s x H4 Hd) as Hs.
    set (s1 := {| lastline := _ |}) in Hs.
    assert (lastline s1 `suffix_of` lastline1 s x) as [pre Hl].
    { simpl. destruct (newLineDetected _ _); [apply suffix_nil|].
      destruct (lastline2_cases b s x) as [->| ->]; [apply suffix_nil|done]. }
    destruct (IH s1) as (s' & Hr & ? & Hb & ? & ? & ? & ? & Hp & [pre' Hl']); [reflexivity|..].
    { intros Hi. apply Hn. rewrite Hl, <-app_assoc. by apply infix_app_r. }
    exists s'. split.
    { change (run b s (x :: rest)) with (s1 ← step b s x; run b s1 rest).
      by rewrite Hs. }
    repeat split; try done.
    + rewrite Hb. simpl. by rewrite <-app_assoc.
    + by rewrite Hp, last_byte_cons.
    + change (x :: rest) with ([x] ++ rest).
      rewrite visible_app, app_assoc, <-lastline1_visible, Hl, <-app_assoc, Hl'.
      exists (pre ++ pre'). by rewrite <-app_assoc.
Qed.

(** In state 4 with the front [p] of the boundary line as candidate, the
    rest of the line completes it; the descriptor's bytes are cut from what
    [buffer] holds when the last byte arrives. *)
Lemma run_delim b q0 : ∀ p x s,
  delim b = p ++ q0 ++ [x] →
  Forall is_visible (delim b) →
  state s = 4 → lastline s = p →
  run b s (q0 ++ [x]) =
    r ← process (RawPart.mk (header s) (info s)
                   (slice0 (buffer s ++ q0)
                      (Z.of_nat (length (buffer s ++ q0))
                       - Z.of_nat (length (delim b)) - 1))
                   (fieldInfo s));
    Ok {| lastline := []; header := ""; info := ""; state := 5; buffer := [];
          allParts := allParts s ++ [r]; fieldInfo := fieldInfo s;
          prevByte := Some x |}.
Proof.
  induction q0 as [|y q0 IH]; intros p x s Hd Hv H4 Hl.
  - simpl in *. rewrite app_nil_r.
    assert (lastline2 b s x = delim b) as Hm.
    { unfold lastline2. rewrite lastline1_vis, Hl, <-Hd.
      - rewrite delim_length.
        destruct (_ <? _) eqn:E; [apply Nat.ltb_lt in E; lia|done].
      - rewrite Hd in Hv. apply Forall_app in Hv as [_ Hv].
        by apply Forall_inv in Hv. }
    rewrite (step_found b s x H4 Hm). unfold found_part. rewrite Hm.
    destruct (process _); done.
  - assert (is_visible y) as Hy.
    { rewrite Hd in Hv. apply Forall_app in Hv as [_ Hv].
      by apply Forall_inv in Hv. }
    assert (lastline1 s y = p ++ [y]) as Hl1 by by rewrite lastline1_vis, Hl.
    assert (length (delim b) = length p + S (length q0 + 1)) as Hlen.
    { rewrite Hd. rewrite length_app. simpl. by rewrite length_app. }
    assert (lastline2 b s y = p ++ [y]) as Hl2.
    { unfold lastline2. rewrite Hl1, length_app. simpl.
      rewrite delim_length in Hlen.
      destruct (_ <? _) eqn:E; [apply Nat.ltb_lt in E; lia|done]. }
    assert (lastline2 b s y ≠ delim b) as Hne.
    { rewrite Hl2. intros H. apply (f_equal length) in H.
      rewrite Hlen, length_app in H. simpl in H. lia. }
    change (run b s ((y :: q0) ++ [x]))
      with (s1 ← step b s y; run b s1 (q0 ++ [x])).
    rewrite (step_body b s y H4 Hne). simpl.
    rewrite (visible_not_nld _ _ Hy), Hl2.
    erewrite (IH (p ++ [y]) x); [|by rewrite <-app_assoc|done|done|done].
    simpl. by rewrite <-!app_assoc.
Qed.

(** ** Lines outside state 4 *)

Lemma run_visible b l : ∀ s,
  state s ≠ 4 → Forall is_visible l →
  run b s l =
    Ok {| lastline := lastline s ++ l; header := header s; info := info s;
          state := state s; buffer := buffer s; allParts := allParts s;
          fieldInfo := fieldInfo s; prevByte := last_byte (prevByte s) l |}.
Proof.
  induction l as [|x l IH]; intros s H4 Hv.
  - destruct s. simpl. by rewrite app_nil_r.
  - apply Forall_cons in Hv as [Hx Hv].
    change (run b s (x :: l)) with (s1 ← step b s x; run b s1 l).
    rewrite (step_other b s x H4 (visible_not_nld _ _ Hx)). simpl.
    rewrite IH; [|done|done]. simpl.
    by rewrite (lastline1_vis _ _ Hx), <-app_assoc, last_byte_cons.
Qed.

Lemma bind_Ok {A B} (a : A) (k : A → outcome B) : mbind k (Ok a) = k a.
Proof. reflexivity. Qed.

Lemma lastline1_nl s x : newLineChar x = true → lastline1 s x = lastline s.
Proof. unfold lastline1. by intros ->. Qed.

Ltac proj := cbn [lastline header info state buffer allParts fieldInfo prevByte].

(** The five transitions on a detected line break. *)
Lemma step_newline b s x :
  newLineDetected (prevByte s) x = true →
  state s ∈ [0; 1; 2; 3; 5] →
  step b s x =
    Ok {| lastline := if decide (state s = 5) then lastline1 s x else [];
          header := if decide (state s = 1) then toString (lastline1 s x) else header s;
          info := if decide (state s = 2) then toString (lastline1 s x) else info s;
          state := match state s with
                   | 0 => if String.eqb (dashes b) (toString (lastline1 s x))
                          then 1 else 0
                   | 5 => 1
                   | n => S n
                   end;
          buffer := if decide (state s = 3) then [] else buffer s;
          allParts := allParts s;
          fieldInfo := if decide (state s = 3) then toString (lastline1 s x)
                       else fieldInfo s;
          prevByte := Some x |}.
Proof.
  intros Hn Hst. unfold step. rewrite Hn.
  set_unfold in Hst.
  destruct Hst as [->|[->|[->|[->|[->|[]]]]]]; reflexivity.
Qed.

(** A line break outside state 4. *)
Lemma run_CRLF b s :
  state s ∈ [0; 1; 2; 3; 5] →
  run b s CRLF =
    Ok {| lastline := if decide (state s = 5) then lastline s else [];
          header := if decide (state s = 1) then toString (lastline s) else header s;
          info := if decide (state s = 2) then toString (lastline s) else info s;
          state := match state s with
                   | 0 => if String.eqb (dashes b) (toString (lastline s))
                          then 1 else 0
                   | 5 => 1
                   | n => S n
                   end;
          buffer := if decide (state s = 3) then [] else buffer s;
          allParts := allParts s;
          fieldInfo := if decide (state s = 3) then toString (lastline s)
                       else fieldInfo s;
          prevByte := Some x0a |}.
Proof.
  intros Hst. unfold CRLF.
  change (run b s [x0d; x0a])
    with (s1 ← step b s x0d; s2 ← step b s1 x0a; Ok s2).
  rewrite step_other; [|set_unfold in Hst; lia|done].
  rewrite bind_Ok, step_newline; [|done|done].
  rewrite bind_Ok. proj. by rewrite !lastline1_nl.
Qed.

Lemma run_line b s line :
  state s ∈ [1; 2; 3] → lastline s = [] → Forall is_visible (bytes line) →
  run b s (bytes line ++ CRLF) =
    Ok {| lastline := [];
          header := if decide (state s = 1) then line else header s;
          info := if decide (state s = 2) then line else info s;
          state := S (state s);
          buffer := if decide (state s = 3) then [] else buffer s;
          allParts := allParts s;
          fieldInfo := if decide (state s = 3) then line else fieldInfo s;
          prevByte := Some x0a |}.
Proof.
  intros Hst Hl Hv.
  rewrite run_app, run_visible; [|set_unfold in Hst; lia|done].
  rewrite bind_Ok, run_CRLF; [|proj; set_unfold in Hst; set_unfold; tauto].
  proj. rewrite Hl, app_nil_l, toString_bytes.
  set_unfold in Hst. destruct Hst as [->|[->|[->|[]]]]; reflexivity.
Qed.

(** The same with the bytes that follow. *)
Lemma run_line_then b s line rest :
  state s ∈ [1; 2; 3] → lastline s = [] → Forall is_visible (bytes line) →
  run b s (bytes line ++ CRLF ++ rest) =
    run b {| lastline := [];
             header := if decide (state s = 1) then line else header s;
             info := if decide (state s = 2) then line else info s;
             state := S (state s);
             buffer := if decide (state s = 3) then [] else buffer s;
             allParts := allParts s;
             fieldInfo := if decide (state s = 3) then line else fieldInfo s;
             prevByte := Some x0a |} rest.
Proof.
  intros Hst Hl Hv. by rewrite app_assoc, run_app, run_line, bind_Ok.
Qed.

Lemma run_blank_then b s rest :
  state s ∈ [1; 2; 3] → lastline s = [] →
  run b s (CRLF ++ rest) =
    run b {| lastline := [];
             header := if decide (state s = 1) then "" else header s;
             info := if decide (state s = 2) then "" else info s;
             state := S (state s);
             buffer := if decide (state s = 3) then [] else buffer s;
             allParts := allParts s;
             fieldInfo := if decide (state s = 3) then "" else fieldInfo s;
             prevByte := Some x0a |} rest.
Proof.
  intros Hst Hl.
  pose proof (run_line_then b s "" rest Hst Hl) as H.
  rewrite <-H; [done|constructor].
Qed.

Lemma run_header_then b s line rest :
  state s = 1 → lastline s = [] → Forall is_visible (bytes line) →
  run b s (bytes line ++ CRLF ++ rest) =
    run b {| lastline := []; header := line; info := info s; state := 2;
             buffer := buffer s; allParts := allParts s;
             fieldInfo := fieldInfo s; prevByte := Some x0a |} rest.
Proof.
  intros Hst Hl Hv. rewrite run_line_then; [|rewrite Hst; set_solver|done|done].
  by rewrite Hst.
Qed.

Lemma run_info_then b s line rest :
  state s = 2 → lastline s = [] → Forall is_visible (bytes line) →
  run b s (bytes line ++ CRLF ++ rest) =
    run b {| lastline := []; header := header s; info := line; state := 3;
             buffer := buffer s; allParts := allParts s;
             fieldInfo := fieldInfo s; prevByte := Some x0a |} rest.
Proof.
  intros Hst Hl Hv. rewrite run_line_then; [|rewrite Hst; set_solver|done|done].
  by rewrite Hst.
Qed.

Lemma run_field_then b s line rest :
  state s = 3 → lastline s = [] → Forall is_visible (bytes line) →
  run b s (bytes line ++ CRLF ++ rest) =
    run b {| lastline := []; header := header s; info := info s; state := 4;
             buffer := []; allParts := allParts s;
             fieldInfo := line; prevByte := Some x0a |} rest.
Proof.
  intros Hst Hl Hv. rewrite run_line_then; [|rewrite Hst; set_solver|done|done].
  by rewrite Hst.
Qed.

Lemma run_blank_info_then b s rest :
  state s = 2 → lastline s = [] →
  run b s (CRLF ++ rest) =
    run b {| lastline := []; header := header s; info := ""; state := 3;
             buffer := buffer s; allParts := allParts s;
             fieldInfo := fieldInfo s; prevByte := Some x0a |} rest.
Proof.
  intros Hst Hl. rewrite run_blank_then; [|rewrite Hst; set_solver|done].
  by rewrite Hst.
Qed.

Lemma run_blank_field_then b s rest :
  state s = 3 → lastline s = [] →
  run b s (CRLF ++ rest) =
    run b {| lastline := []; header := header s; info := info s; state := 4;
             buffer := []; allParts := allParts s;
             fieldInfo := ""; prevByte := Some x0a |} rest.
Proof.
  intros Hst Hl. rewrite run_blank_then; [|rewrite Hst; set_solver|done].
  by rewrite Hst.
Qed.

(** ** Segments and whole bodies *)

Lemma delim_snoc b : ∃ q0 x, delim b = q0 ++ [x] ∧ length q0 = String.length b + 1.
Proof.
  destruct (delim b) as [|y l] eqn:E using rev_ind; [by apply delim_not_nil in E|].
  exists l, y. split; [done|].
  apply (f_equal length) in E. rewrite delim_length, length_app in E. simpl in E. lia.
Qed.

Lemma slice0_app_exact {A} (l r : list A) :
  slice0 (l ++ r) (Z.of_nat (length l)) = l.
Proof.
  unfold slice0. destruct (_ <? _)%Z eqn:E; [apply Z.ltb_lt in E; lia|].
  rewrite length_app, Z.min_l by lia. rewrite Nat2Z.id. by rewrite take_app_length.
Qed.

Lemma slice0_app_at {A} (l r : list A) k :
  k = Z.of_nat (length l) → slice0 (l ++ r) k = l.
Proof. intros ->. apply slice0_app_exact. Qed.

(** The boundary line read in state 4 from an empty candidate. *)
Lemma run_delim_fresh b s :
  Forall is_visible (delim b) → state s = 4 → lastline s = [] →
  run b s (delim b) =
    r ← process (RawPart.mk (header s) (info s)
                   (slice0 (buffer s ++ take (String.length b + 1) (delim b))
                      (Z.of_nat (length (buffer s)) - 2))
                   (fieldInfo s));
    Ok {| lastline := []; header := ""; info := ""; state := 5; buffer := [];
          allParts := allParts s ++ [r]; fieldInfo := fieldInfo s;
          prevByte := last (delim b) |}.
Proof.
  intros Hd H4 Hl. destruct (delim_snoc b) as (q0 & x & Hq & Hq0).
  pose proof (run_delim b q0 [] x s Hq Hd H4 Hl) as H.
  rewrite <-Hq in H. rewrite H, Hq, last_snoc.
  rewrite take_app_length' by lia.
  replace (Z.of_nat (length (buffer s ++ q0)) - Z.of_nat (length (q0 ++ [x])) - 1)%Z
    with (Z.of_nat (length (buffer s)) - 2)%Z; [done|].
  rewrite !length_app. simpl. lia.
Qed.

Lemma run_text_segment b s h v :
  state s = 1 → lastline s = [] → Forall is_visible (delim b) →
  line h → line v →
  match process (raw_of b (TextSeg h v)) with
  | Ok r => ∃ s', run b s (encode_segment (TextSeg h v) ++ delim b) = Ok s' ∧ found s r s'
  | Throw e => run b s (encode_segment (TextSeg h v) ++ delim b) = Throw e
  end.
Proof.
  intros Hst Hl Hd Hh Hv. unfold encode_segment.
  rewrite <-!app_assoc.
  rewrite run_header_then, run_blank_info_then, run_field_then by done.
  proj.
  rewrite run_delim_fresh by done. proj. rewrite app_nil_l.
  replace (slice0 _ _) with (take (String.length b - 1) (delim b)).
  2:{ unfold slice0. simpl. rewrite length_take, delim_length, take_take.
      f_equal. lia. }
  unfold raw_of.
  destruct (process _) as [r|e]; [|done].
  eexists. split; [done|]. by repeat split.
Qed.

Lemma visible_CR p : visible (p ++ [x0d]) = visible p.
Proof. rewrite visible_app. apply app_nil_r. Qed.

(** In state 4 with nothing read yet, a payload that has no boundary line
    among its bytes other than CR and LF, its line break and the boundary
    line: the descriptor holds the payload, whatever the lengths of its
    lines. *)
Lemma run_payload b s p :
  state s = 4 → lastline s = [] → buffer s = [] →
  Forall is_visible (delim b) → ¬ infix (delim b) (visible p) →
  run b s (p ++ CRLF ++ delim b) =
    r ← process (RawPart.mk (header s) (info s) p (fieldInfo s));
    Ok {| lastline := []; header := ""; info := ""; state := 5; buffer := [];
          allParts := allParts s ++ [r]; fieldInfo := fieldInfo s;
          prevByte := last (delim b) |}.
Proof.
  intros H4 Hl Hb Hd Hp.
  (* the payload and the CR after it *)
  replace (p ++ CRLF ++ delim b) with ((p ++ [x0d]) ++ x0a :: delim b)
    by by rewrite <-app_assoc.
  rewrite run_app.
  destruct (run_body_quiet b (p ++ [x0d]) s)
    as (s4 & -> & H4' & Hb4 & Hh4 & Hi4 & Hf4 & Ha4 & Hp4 & Hs4); [done|..].
  { by rewrite Hl, visible_CR. }
  rewrite bind_Ok. rewrite last_byte_snoc in Hp4.
  rewrite Hl, visible_CR, app_nil_l in Hs4.
  (* the LF *)
  change (run b s4 (x0a :: delim b))
    with (s5 ← step b s4 x0a; run b s5 (delim b)).
  rewrite step_body; [|done|].
  2:{ destruct (lastline2_cases b s4 x0a) as [->|Hc];
        [by intros ?%symmetry%delim_not_nil|].
      rewrite Hc, lastline1_nl by done. intros Hm. apply Hp.
      destruct Hs4 as [pre ->]. rewrite Hm. by exists pre, []; rewrite app_nil_r. }
  rewrite bind_Ok, Hp4. cbn [newLineDetected Byte.eqb andb].
  (* the boundary line *)
  rewrite run_delim_fresh by done. proj.
  rewrite Hb4, Hh4, Hi4, Hf4, Ha4, Hb.
  rewrite app_nil_l, <-!app_assoc.
  by rewrite slice0_app_at by (rewrite !length_app; simpl; lia).
Qed.

Lemma run_file_segment b s h i p :
  state s = 1 → lastline s = [] → Forall is_visible (delim b) →
  line h → line i → ¬ infix (delim b) (visible p) →
  match process (raw_of b (FileSeg h i p)) with
  | Ok r => ∃ s', run b s (encode_segment (FileSeg h i p) ++ delim b) = Ok s' ∧
                  found s r s'
  | Throw e => run b s (encode_segment (FileSeg h i p) ++ delim b) = Throw e
  end.
Proof.
  intros Hst Hl Hd Hh Hi Hp. unfold encode_segment.
  rewrite <-!app_assoc.
  rewrite run_header_then, run_info_then, run_blank_field_then by done.
  proj. rewrite run_payload by done. proj. unfold raw_of.
  destruct (process _) as [r|e]; [|done].
  eexists. split; [done|]. by repeat split.
Qed.

Lemma run_segment b s g :
  state s = 1 → lastline s = [] → Forall is_visible (delim b) →
  wf_segment b g →
  match process (raw_of b g) with
  | Ok r => ∃ s', run b s (encode_segment g ++ delim b) = Ok s' ∧ found s r s'
  | Throw e => run b s (encode_segment g ++ delim b) = Throw e
  end.
Proof.
  intros Hst Hl Hd Hg. destruct g as [h v|h i p].
  - destruct Hg. by apply run_text_segment.
  - destruct Hg as (? & ? & ?). by apply run_file_segment.
Qed.

Lemma run_segments b gs : ∀ s,
  Forall is_visible (delim b) → after_delim b s →
  Forall (wf_segment b) gs →
  match mapM_outcome process (map (raw_of b) gs) with
  | Ok rs => ∃ s', run b s (encode_rest b gs) = Ok s' ∧
                   allParts s' = allParts s ++ rs
  | Throw e => run b s (encode_rest b gs) = Throw e
  end.
Proof.
  induction gs as [|g gs IH]; intros s Hd Hs Hwf.
  - cbn [encode_rest map mapM_outcome]. rewrite run_app, run_visible.
    + rewrite bind_Ok, run_CRLF.
      * eexists. split; [done|]. proj. by rewrite app_nil_r.
      * proj. destruct Hs as [[-> _]|[-> _]]; set_solver.
    + destruct Hs as [[-> _]|[-> _]]; done.
    + repeat constructor.
  - apply Forall_cons in Hwf as [Hg Hwf].
    cbn [encode_rest map mapM_outcome].
    rewrite run_app, run_CRLF
      by (destruct Hs as [[-> _]|[-> _]]; set_solver).
    rewrite bind_Ok. set (s1 := {| prevByte := Some x0a |}).
    assert (state s1 = 1 ∧ lastline s1 = [] ∧ allParts s1 = allParts s)
      as (H1 & Hl1 & Ha1).
    { subst s1. proj. destruct Hs as [[-> ->]|[-> ->]].
      - assert (String.eqb (dashes b) (toString (delim b)) = true) as ->
          by by apply eqb_toString.
        done.
      - done. }
    rewrite app_assoc, run_app.
    pose proof (run_segment b s1 g H1 Hl1 Hd Hg) as Hrun.
    destruct (process (raw_of b g)) as [r|e]; [|by rewrite Hrun].
    destruct Hrun as (s2 & -> & H5 & Hl2 & Ha2).
    rewrite !bind_Ok.
    specialize (IH s2 Hd (or_intror (conj H5 Hl2)) Hwf).
    destruct (mapM_outcome process (map (raw_of b) gs)) as [rs|e].
    + destruct IH as (s' & -> & Ha). exists s'. split; [done|].
      rewrite Ha, Ha2, Ha1, <-app_assoc. done.
    + by rewrite IH.
Qed.

Lemma run_opening b :
  Forall is_visible (delim b) →
  ∃ s, run b init (delim b) = Ok s ∧ after_delim b s ∧ allParts s = [].
Proof.
  intros Hd. rewrite run_visible; [|done|done].
  eexists. split; [done|]. split; [|done]. left. by split.
Qed.

(** The scanner on a well-formed body hands [process] one descriptor per
    segment, in order. *)
Lemma parse_encode b gs :
  Forall is_visible (delim b) →
  Forall (wf_segment b) gs →
  parse (encode b gs) b = mapM_outcome process (map (raw_of b) gs).
Proof.
  intros Hd Hwf. unfold parse, encode. rewrite run_app.
  destruct (run_opening b Hd) as (s & -> & Hs & Ha).
  rewrite bind_Ok.
  pose proof (run_segments b gs s Hd Hs Hwf) as H.
  destruct (mapM_outcome _ _) as [rs|e].
  - destruct H as (s' & -> & Ha'). by rewrite bind_Ok, Ha', Ha.
  - by rewrite H.
Qed.

(** ** Characters, [split], [trim] and string literals *)

Ltac ascii_cases c := destruct c as [[] [] [] [] [] [] [] []]; vm_compute; try done.

Lemma all_chars_app P s t :
  all_chars P (s +:+ t) = all_chars P s && all_chars P t.
Proof.
  induction s as [|c s IH]; [done|].
  rewrite str_app_cons. simpl. by rewrite IH, andb_assoc.
Qed.

Lemma all_chars_impl (P Q : ascii → bool) s :
  (∀ c, P c = true → Q c = true) → all_chars P s = true → all_chars Q s = true.
Proof.
  intros HPQ. induction s as [|c s IH]; [done|]. simpl.
  rewrite !andb_true_iff. intros [? ?]. auto.
Qed.

Lemma plain_not_semi c : is_plain c = true → is_not ";" c = true.
Proof. ascii_cases c. Qed.
Lemma plain_not_eq c : is_plain c = true → is_not "=" c = true.
Proof. ascii_cases c. Qed.
Lemma plain_line_char c : is_plain c = true → is_line_char c = true.
Proof. ascii_cases c. Qed.

Lemma line_chars s : all_chars is_line_char s = true → line s.
Proof.
  unfold line, bytes, String.list_byte_of_string.
  induction s as [|c s IH]; simpl; [constructor|].
  rewrite andb_true_iff. intros [Hc Hs]. constructor; [|auto].
  unfold is_visible. unfold is_line_char in Hc. by apply negb_true_iff in Hc.
Qed.

(** [split] on a string that has no separator, and at the first separator. *)
Lemma split_no_sep sep s :
  all_chars (is_not sep) s = true → JS.split sep s = [s].
Proof.
  induction s as [|c s IH]; [done|]. simpl. unfold is_not at 1.
  rewrite andb_true_iff, negb_true_iff. intros [-> Hs]. by rewrite IH.
Qed.

Lemma split_app_sep sep a r :
  all_chars (is_not sep) a = true →
  JS.split sep (a +:+ String sep r) = a :: JS.split sep r.
Proof.
  induction a as [|c a IH].
  - intros _. rewrite str_app_nil. simpl. by rewrite Ascii.eqb_refl.
  - rewrite str_app_cons. simpl. unfold is_not at 1.
    rewrite andb_true_iff, negb_true_iff. intros [-> Ha]. by rewrite IH.
Qed.

Lemma trim_end_snoc s c :
  JS.is_space c = false →
  JS.trim_end (s +:+ String c "") = s +:+ String c "".
Proof.
  intros Hc. induction s as [|a s IH].
  - rewrite str_app_nil. simpl. by rewrite Hc.
  - rewrite str_app_cons. simpl. rewrite IH.
    destruct s; [by rewrite str_app_nil|by rewrite str_app_cons].
Qed.

Lemma string_chars_plain_char c r :
  is_plain c = true →
  JSON.string_chars JSON.SNormal (String c r) =
  JSON.scons c (JSON.string_chars JSON.SNormal r).
Proof.
  unfold is_plain. cbn [JSON.string_chars]. cbv zeta.
  generalize (nat_of_ascii c). intros n.
  rewrite !andb_true_iff, negb_true_iff, !orb_false_iff.
  intros [[H32 _] [[[-> ->] _] _]].
  apply Nat.leb_le in H32.
  by destruct (Nat.ltb_spec n 32); [lia|].
Qed.

Lemma string_chars_plain n rest :
  all_chars is_plain n = true →
  JSON.string_chars JSON.SNormal (n +:+ String dq rest) = Some (n, rest).
Proof.
  induction n as [|c n IH].
  - done.
  - simpl all_chars. rewrite andb_true_iff. intros [Hc Hn].
    rewrite str_app_cons, string_chars_plain_char, IH; done.
Qed.

Lemma JSON_parse_quoted n :
  all_chars is_plain n = true →
  JSON.parse (String dq (n +:+ String dq "")) = Ok (VStr n).
Proof.
  intros Hn. unfold JSON.parse.
  replace (2 * _ + 2) with (S (2 * String.length (String dq (n +:+ String dq "")) + 1)) by lia.
  cbn [JSON.value]. change (JSON.skip_ws (String dq ?r)) with (String dq r).
  change (Ascii.eqb dq dq) with true. cbv iota.
  rewrite string_chars_plain by done. done.
Qed.

(** ** Header parameters *)

Lemma plain_text c : is_plain c = true → is_text c = true.
Proof. ascii_cases c. Qed.
Lemma text_line_char c : is_text c = true → is_line_char c = true.
Proof. ascii_cases c. Qed.

Lemma text_line s : text s → line s.
Proof. intros H. apply line_chars. eapply all_chars_impl; [apply text_line_char|done]. Qed.

Lemma trim_quote s : JS.trim (quote s) = quote s.
Proof. unfold JS.trim. cbn [quote JS.trim_start]. change (JS.is_space dq) with false.
  cbv iota. by rewrite <-str_app_cons, trim_end_snoc. Qed.

Lemma all_chars_quote P s :
  P dq = true → all_chars P s = true → all_chars P (quote s) = true.
Proof.
  intros HP Hs. unfold quote. simpl. rewrite all_chars_app, HP, Hs. simpl. by rewrite HP.
Qed.

Lemma all_chars_param P k v :
  P " "%char = true → P "="%char = true → P dq = true →
  all_chars P k = true → all_chars P v = true →
  all_chars P (param k v) = true.
Proof.
  intros H1 H2 H3 Hk Hv. unfold param.
  rewrite !all_chars_app, Hk. simpl. rewrite H1, H2. simpl.
  by apply all_chars_quote.
Qed.

(** [obj] on a well-formed [key="value"] parameter. *)
Lemma obj_param k v :
  all_chars (is_not "=") k = true → plain v →
  obj (Some (param k v)) = Ok {[ JS.trim (" " +:+ k) := VStr v ]}.
Proof.
  intros Hk Hv. unfold obj, param.
  change (" " +:+ k +:+ "=" +:+ quote v) with (String " " k +:+ String "=" (quote v)).
  rewrite split_app_sep by (simpl; by rewrite Hk).
  rewrite split_no_sep.
  2:{ apply all_chars_quote; [done|]. eapply all_chars_impl; [apply plain_not_eq|done]. }
  cbn [lookup list_lookup]. rewrite trim_quote.
  unfold quote. by rewrite JSON_parse_quoted.
Qed.

(** ** The assembler on the usual header lines *)

Ltac map_ext :=
  apply map_eq; intros ?k;
  rewrite ?lookup_insert, ?lookup_singleton;
  repeat case_decide; simplify_eq; done.

Lemma split_disposition_text n v :
  plain n →
  JS.split ";" (disposition (TextField n v)) =
  ["Content-Disposition: form-data"; param "name" n].
Proof.
  intros Hn. unfold disposition.
  change (?a +:+ ";" +:+ ?r) with (a +:+ String ";" r).
  rewrite split_app_sep by done.
  rewrite split_no_sep; [done|].
  apply all_chars_param; try done.
  eapply all_chars_impl; [apply plain_not_semi|done].
Qed.

Lemma split_disposition_file n f t p :
  plain n → plain f →
  JS.split ";" (disposition (FileField n f t p)) =
  ["Content-Disposition: form-data"; param "name" n; param "filename" f].
Proof.
  intros Hn Hf. unfold disposition.
  change ("Content-Disposition: form-data" +:+ ";" +:+ ?r)
    with ("Content-Disposition: form-data" +:+ String ";" r).
  rewrite split_app_sep by done.
  change (?a +:+ ";" +:+ ?r) with (a +:+ String ";" r).
  rewrite split_app_sep.
  2:{ apply all_chars_param; try done.
      eapply all_chars_impl; [apply plain_not_semi|done]. }
  rewrite split_no_sep; [done|].
  apply all_chars_param; try done.
  eapply all_chars_impl; [apply plain_not_semi|done].
Qed.

Lemma process_text_entry b n v :
  plain n → v ≠ "" →
  process (raw_of b (segment_of (TextField n v))) = Ok (expected_part (TextField n v)).
Proof.
  intros Hn Hv. unfold process. cbn [raw_of segment_of RawPart.header RawPart.fieldInfo].
  apply String.eqb_neq in Hv. rewrite Hv. cbn [negb].
  rewrite split_disposition_text by done.
  unfold process_field. cbn [lookup list_lookup].
  rewrite obj_param by done. rewrite bind_Ok. cbn [RawPart.fieldInfo].
  change (JS.trim (" " +:+ "name")) with "name".
  f_equal; unfold expected_part; map_ext.
Qed.

Lemma process_file_entry b n f t p :
  plain n → n ≠ "" → plain f →
  all_chars (is_not ":") t = true → JS.trim t = t →
  process (raw_of b (segment_of (FileField n f t p))) =
  Ok (expected_part (FileField n f t p)).
Proof.
  intros Hn Hne Hf Ht Htrim. unfold process.
  cbn [raw_of segment_of RawPart.header RawPart.fieldInfo].
  change (String.eqb "" "") with true. cbn [negb].
  rewrite split_disposition_file by done.
  unfold process_file. cbn [lookup list_lookup].
  rewrite !obj_param by done. rewrite !bind_Ok.
  change (JS.trim (" " +:+ "name")) with "name".
  change (JS.trim (" " +:+ "filename")) with "filename".
  rewrite lookup_singleton_eq. cbn [truthy].
  apply String.eqb_neq in Hne. rewrite Hne. cbn [negb RawPart.info RawPart.part].
  unfold content_type.
  change ("Content-Type" +:+ ":" +:+ " " +:+ t) with ("Content-Type" +:+ String ":" (String " " t)).
  rewrite split_app_sep by done.
  rewrite split_no_sep by (simpl; by rewrite Ht).
  cbn [lookup list_lookup].
  change (JS.trim (String " " t)) with (JS.trim t). rewrite Htrim.
  f_equal; unfold expected_part; map_ext.
Qed.

Lemma line_param k v :
  all_chars is_line_char k = true → plain v →
  all_chars is_line_char (param k v) = true.
Proof.
  intros Hk Hv. apply all_chars_param; try done.
  eapply all_chars_impl; [apply plain_line_char|done].
Qed.

Lemma wf_entry_segment b e : wf_entry b e → wf_segment b (segment_of e).
Proof.
  destruct e as [n v|n f t p]; simpl.
  - intros (? & ? & ?). split; [|by apply text_line].
    apply line_chars. by rewrite !all_chars_app, line_param.
  - intros (? & ? & ? & ? & ? & ? & ?). repeat split; [| |done].
    + apply line_chars. by rewrite !all_chars_app, !line_param.
    + apply line_chars. unfold content_type. rewrite !all_chars_app.
      replace (all_chars is_line_char t) with true; [done|].
      symmetry. eapply all_chars_impl; [apply text_line_char|done].
Qed.

Lemma text_delim_visible b : text b → Forall is_visible (delim b).
Proof.
  intros Hb. unfold delim, dashes. rewrite bytes_app. apply Forall_app. split.
  - repeat constructor.
  - by apply text_line.
Qed.

Lemma parse_entries b es :
  text b → Forall (wf_entry b) es →
  parse (encode b (map segment_of es)) b = Ok (map expected_part es).
Proof.
  intros Hb Hwf.
  rewrite parse_encode.
  - induction Hwf as [|e es He _ IH]; [done|].
    cbn [map mapM_outcome]. rewrite IH.
    destruct e as [n v|n f t p].
    + destruct He as (? & ? & ?). by rewrite process_text_entry.
    + destruct He as (? & ? & ? & ? & ? & ? & ?). by rewrite process_file_entry.
  - by apply text_delim_visible.
  - eapply Forall_fmap, Forall_impl; [done|]. apply wf_entry_segment.
Qed.

(** ** Emitted parts and exceptions *)

(** Emitted parts are only ever added. *)
Lemma step_allParts b s x s1 :
  step b s x = Ok s1 → ∃ rs, allParts s1 = allParts s ++ rs.
Proof.
  destruct (decide (state s = 4)) as [H4|H4].
  - destruct (decide (lastline2 b s x = delim b)) as [Hd|Hd].
    + rewrite (step_found b s x H4 Hd).
      destruct (process _) as [r|e]; [|done].
      rewrite bind_Ok. intros [= <-]. by exists [r].
    + rewrite (step_body b s x H4 Hd). intros [= <-]. exists []. proj.
      by rewrite app_nil_r.
  - destruct (step_quiet b s x) as (s' & -> & Ha & _); [by left|].
    intros [= <-]. exists []. by rewrite app_nil_r.
Qed.

Lemma run_allParts b bs : ∀ s s',
  run b s bs = Ok s' → ∃ rs, allParts s' = allParts s ++ rs.
Proof.
  induction bs as [|x bs IH]; intros s s'.
  - intros [= <-]. exists []. by rewrite app_nil_r.
  - change (run b s (x :: bs)) with (s1 ← step b s x; run b s1 bs).
    destruct (step b s x) as [s1|e] eqn:E; [|done]. rewrite bind_Ok.
    intros Hr. apply step_allParts in E as [r1 E].
    apply IH in Hr as [r2 Hr]. exists (r1 ++ r2). by rewrite Hr, E, app_assoc.
Qed.

(** A run from state 4 that emits nothing has stayed in state 4, and
    [buffer] has every byte it read. *)
Lemma run_body_buffer b bs : ∀ s s',
  state s = 4 → run b s bs = Ok s' → allParts s' = allParts s →
  state s' = 4 ∧ buffer s' = buffer s ++ bs ∧
  header s' = header s ∧ info s' = info s ∧ fieldInfo s' = fieldInfo s.
Proof.
  induction bs as [|x bs IH]; intros s s' H4.
  - intros [= <-] _. by rewrite app_nil_r.
  - change (run b s (x :: bs)) with (s1 ← step b s x; run b s1 bs).
    destruct (decide (lastline2 b s x = delim b)) as [Hd|Hd].
    + rewrite (step_found b s x H4 Hd).
      destruct (process _) as [r|e]; [|done]. rewrite !bind_Ok.
      intros Hr Ha. apply run_allParts in Hr as [rs Hr].
      rewrite Ha in Hr. cbn [allParts] in Hr. apply (f_equal length) in Hr.
      rewrite !length_app in Hr. simpl in Hr. lia.
    + rewrite (step_body b s x H4 Hd), bind_Ok.
      intros Hr Ha. apply IH in Hr as (? & Hb & ? & ? & ?); [|done|done].
      repeat split; try done. rewrite Hb. proj. by rewrite <-app_assoc.
Qed.

(** An exception of [process] leaves [parse] through the loop. *)
Lemma parse_throw_at_found b pre x rest s e :
  run b init pre = Ok s → state s = 4 → lastline2 b s x = delim b →
  process (found_part b s x) = Throw e →
  parse (pre ++ x :: rest) b = Throw e.
Proof.
  intros Hpre H4 Hd Hp. unfold parse. rewrite run_app, Hpre, bind_Ok.
  change (run b s (x :: rest)) with (s1 ← step b s x; run b s1 rest).
  by rewrite (step_found b s x H4 Hd), Hp.
Qed.

Lemma split_cons sep s : ∃ h t, JS.split sep s = h :: t.
Proof.
  induction s as [|c s (h & t & IH)]; simpl; [by eexists _, _|].
  destruct (Ascii.eqb c sep); [by eexists _, _|]. rewrite IH. by eexists _, _.
Qed.

Lemma obj_no_eq seg :
  all_chars (is_not "=") seg = true → obj (Some seg) = Throw TypeError.
Proof. intros H. unfold obj. by rewrite split_no_sep. Qed.

Lemma string_chars_suffix s : ∀ m str r,
  JSON.string_chars m s = Some (str, r) → ∃ p, s = p +:+ r.
Proof.
  assert (∀ c o str r, JSON.scons c o = Some (str, r) →
                        ∃ str', o = Some (str', r)) as Hsc.
  { intros c [[??]|] ??; [|done]. intros [= <- <-]. eauto. }
  induction s as [|c s IH]; intros m str r; [done|].
  cbn [JSON.string_chars]. cbv zeta.
  assert (∀ m' str', JSON.string_chars m' s = Some (str', r) →
            ∃ p, String c s = p +:+ r) as Hrec.
  { intros m' str' [p ->]%IH. by exists (String c p). }
  destruct m as [| |k acc].
  - destruct (_ =? 34); [intros [= <- <-]; by exists (String c "")|].
    destruct (_ =? 92); [apply Hrec|].
    destruct (_ <? 32); [done|]. intros [? ?]%Hsc. eauto.
  - destruct (JSON.unescape c); [intros [? ?]%Hsc; eauto|].
    destruct (_ =? 117); [apply Hrec|done].
  - destruct (JSON.hex_val c); [|done].
    destruct k; [|apply Hrec].
    destruct (_ <? 256)%N; [|done]. intros [? ?]%Hsc. eauto.
Qed.

Lemma trim_end_last s : ∀ p c,
  JS.trim_end s = p +:+ String c "" → JS.is_space c = false.
Proof.
  induction s as [|a s IH]; intros p c; simpl.
  - by destruct p.
  - destruct (JS.trim_end s) as [|a' s'] eqn:E.
    + destruct (JS.is_space a) eqn:Ea; [by destruct p|].
      destruct p as [|? p]; [by intros [= <-]|].
      rewrite str_app_cons. intros [= _ H]. by destruct p.
    + destruct p as [|? p]; [by rewrite str_app_nil|].
      rewrite str_app_cons. intros [= _ H]. by eapply IH.
Qed.

Lemma skip_ws_nil_last r : ∀ p c,
  JSON.skip_ws r = "" → r = p +:+ String c "" → JSON.is_ws c = true.
Proof.
  induction r as [|a r IH]; intros p c; simpl.
  - by destruct p.
  - destruct (JSON.is_ws a) eqn:Ea; [|done].
    intros Hs. destruct p as [|? p].
    + rewrite str_app_nil. by intros [= <- _].
    + rewrite str_app_cons. intros [= _ H]. by eapply IH.
Qed.

Lemma str_snoc_inv r : r ≠ "" → ∃ p c, r = p +:+ String c "".
Proof.
  induction r as [|a r IH]; [done|]. intros _.
  destruct r as [|a' r']; [by exists "", a|].
  destruct IH as (p & c & ->); [done|]. by exists (String a p), c.
Qed.

Lemma is_ws_space c : JSON.is_ws c = true → JS.is_space c = true.
Proof. ascii_cases c. Qed.

Lemma str_app_assoc (s t u : string) : (s +:+ t) +:+ u = s +:+ t +:+ u.
Proof. induction s as [|c s IH]; [done|]. by rewrite !str_app_cons, IH. Qed.

(** [JSON.parse] fails on a trimmed value that opens with a quote and is
    not one string literal. *)
Lemma not_literal_throws v :
  not_literal (JS.trim v) → JSON.parse (JS.trim v) = Throw SyntaxError.
Proof.
  intros (r & Hv & Hr). rewrite Hv. unfold JSON.parse.
  replace (2 * _ + 2) with (S (2 * String.length (String dq r) + 1)) by lia.
  cbn [JSON.value]. change (JSON.skip_ws (String dq r)) with (String dq r).
  change (Ascii.eqb dq dq) with true. cbv iota.
  destruct (JSON.string_chars JSON.SNormal r) as [[str r']|] eqn:E; [|done].
  cbn. destruct (JSON.skip_ws r') eqn:Ews; [|done].
  destruct (decide (r' = "")) as [->|Hne]; [by specialize (Hr str)|].
  exfalso. destruct (str_snoc_inv r' Hne) as (q & c & ->).
  apply string_chars_suffix in E as [p ->].
  pose proof (skip_ws_nil_last _ q c Ews eq_refl) as Hc%is_ws_space.
  unfold JS.trim in Hv.
  rewrite <-str_app_assoc, <-str_app_cons in Hv.
  apply trim_end_last in Hv. congruence.
Qed.




(** ** [indexOf] and the loop of [getBoundary] *)

Lemma prefix_spec p : ∀ s, String.prefix p s = true ↔ ∃ c, s = p +:+ c.
Proof.
  induction p as [|a p IH]; intros s.
  - split; [intros _; by exists s|]. intros _. by destruct s.
  - destruct s as [|a' s]; simpl.
    + split; [done|]. by intros [c ?].
    + destruct (ascii_dec a a') as [->|Hne].
      * rewrite IH. split; intros [c Hc]; exists c.
        -- by rewrite str_app_cons, Hc.
        -- rewrite str_app_cons in Hc. by simplify_eq.
      * split; [done|]. intros [c Hc]. rewrite str_app_cons in Hc. by simplify_eq.
Qed.

Lemma indexOf_ge p s : (-1 <= JS.indexOf p s)%Z.
Proof.
  induction s as [|c s IH]; cbn [JS.indexOf].
  - destruct (String.prefix p ""); lia.
  - destruct (String.prefix p (String c s)); [lia|]. cbv zeta.
    destruct (Z.ltb_spec (JS.indexOf p s) 0); lia.
Qed.

Lemma indexOf_spec p s : (0 <=? JS.indexOf p s)%Z = true ↔ has_sub p s.
Proof.
  rewrite Z.leb_le. induction s as [|c s IH].
  - cbn [JS.indexOf]. destruct (String.prefix p "") eqn:E.
    + split; [|lia]. intros _. apply prefix_spec in E as [c' E]. by exists "", c'.
    + split; [lia|]. intros (a & c' & H).
      destruct a; [|done]. rewrite str_app_nil in H.
      assert (String.prefix p "" = true) by (apply prefix_spec; eauto). congruence.
  - cbn [JS.indexOf]. destruct (String.prefix p (String c s)) eqn:E.
    + split; [|lia]. intros _. apply prefix_spec in E as [c' E]. by exists "", c'.
    + pose proof (indexOf_ge p s) as Hge1. cbv zeta.
      destruct (Z.ltb_spec (JS.indexOf p s) 0) as [Hlt|Hge].
      * split; [lia|]. intros (a & c' & H). destruct a as [|a0 a].
        -- rewrite str_app_nil in H.
           assert (String.prefix p (String c s) = true) by (apply prefix_spec; eauto).
           congruence.
        -- rewrite str_app_cons in H. simplify_eq.
           assert (has_sub p (a +:+ p +:+ c')) as Hs%IH by by exists a, c'. lia.
      * split; [|lia]. intros _. destruct IH as [IH _].
        destruct (IH Hge) as (a & c' & ->). by exists (String c a), c'.
Qed.

Lemma indexOf_neg p s : (0 <=? JS.indexOf p s)%Z = false ↔ ¬ has_sub p s.
Proof. rewrite <-indexOf_spec. by destruct (_ <=? _)%Z. Qed.

Lemma getBoundary_loop_none items :
  Forall (λ seg, ¬ has_sub "boundary" (JS.trim seg)) items →
  getBoundary_loop items = "".
Proof.
  induction 1 as [|seg items Hseg _ IH]; [done|].
  cbn [getBoundary_loop JS.to_str]. cbv zeta.
  apply indexOf_neg in Hseg. by rewrite Hseg.
Qed.

Lemma getBoundary_loop_first pre seg post :
  Forall (λ seg, ¬ has_sub "boundary" (JS.trim seg)) pre →
  has_sub "boundary" (JS.trim seg) →
  getBoundary_loop (pre ++ seg :: post) =
  JS.trim (JS.to_str (JS.split "=" (JS.trim seg) !! 1)).
Proof.
  intros Hpre Hseg. induction Hpre as [|s pre Hs _ IH].
  - cbn [app getBoundary_loop JS.to_str]. cbv zeta.
    apply indexOf_spec in Hseg. by rewrite Hseg.
  - cbn [app getBoundary_loop JS.to_str]. cbv zeta.
    apply indexOf_neg in Hs. by rewrite Hs.
Qed.

Lemma trim_start_all P s : all_chars P s = true → all_chars P (JS.trim_start s) = true.
Proof.
  induction s as [|c s IH]; [done|]. simpl.
  destruct (JS.is_space c); [|done]. rewrite andb_true_iff. intros [_ ?]. auto.
Qed.

Lemma trim_end_all P s : all_chars P s = true → all_chars P (JS.trim_end s) = true.
Proof.
  induction s as [|c s IH]; [done|]. simpl. rewrite andb_true_iff.
  intros [Hc Hs]. specialize (IH Hs).
  destruct (JS.trim_end s).
  - destruct (JS.is_space c); [done|]. simpl. by rewrite Hc.
  - simpl in *. by rewrite Hc, IH.
Qed.

Lemma trim_all P s : all_chars P s = true → all_chars P (JS.trim s) = true.
Proof. intros. by apply trim_end_all, trim_start_all. Qed.

(** ** Deciding occurrences *)

Lemma prefixb_complete p c : prefixb p (p ++ c) = true.
Proof.
  induction p as [|x p IH]; [done|]. simpl.
  by rewrite Byte.byte_dec_lb, IH.
Qed.

Lemma infixb_complete p l : infix p l → infixb p l = true.
Proof.
  intros (a & c & ->). induction a as [|x a IH].
  - pose proof (prefixb_complete p c) as H.
    rewrite app_nil_l. destruct (p ++ c); simpl; by rewrite H.
  - cbn [app infixb]. by rewrite IH, orb_true_r.
Qed.

Lemma infixb_false p l : infixb p l = false → ¬ infix p l.
Proof. intros H Hi%infixb_complete. congruence. Qed.

Lemma delim_cons b : delim b = "-"%byte :: "-"%byte :: bytes b.
Proof. unfold delim, dashes. by rewrite bytes_app. Qed.

(** A payload without a hyphen has no boundary line. *)
Lemma no_hyphen_no_delim b l : "-"%byte ∉ l → ¬ infix (delim b) l.
Proof.
  intros Hl (a & c & ->). apply Hl. rewrite delim_cons.
  apply elem_of_app. right. apply elem_of_app. left. by left.
Qed.

(** A body without the boundary line among its bytes other than CR and LF
    yields no part. *)
Lemma parse_no_boundary b body :
  ¬ infix (delim b) (visible body) → parse body b = Ok [].
Proof.
  intros H. unfold parse.
  destruct (run_quiet b body init H) as (s' & -> & Ha & _).
  by rewrite bind_Ok, Ha.
Qed.

(** * The claims of the specification *)

(** C1: a body with the text field foo=bar followed by the file field
    upload (filename a.txt, type text/plain, payload hello) parses, with any
    7-bit boundary free of CR and LF, to exactly two parts in that order:
    name foo with data bar, then name upload, filename a.txt, type
    text/plain with the bytes of hello as data. *)
Theorem parse_text_then_file b :
  text b →
  parse (encode b (map segment_of two_entries)) b =
  Ok [ {[ "name" := VStr "foo"; "data" := VStr "bar" ]};
       {[ "name" := VStr "upload"; "filename" := VStr "a.txt";
          "type" := VStr "text/plain"; "data" := VBuf (bytes "hello") ]} ].
Proof.
  intros Hb. rewrite parse_entries; [done|done|].
  repeat constructor; try done.
  apply no_hyphen_no_delim. intros Hin. vm_compute in Hin.
  repeat (apply elem_of_cons in Hin as [Hin|Hin]; [discriminate Hin|]).
  by apply elem_of_nil in Hin.
Qed.

(** [body1] is that body for the boundary [XyZ]. *)
Lemma parse_text_then_file_witness :
  text "XyZ" ∧
  parse body1 "XyZ" =
  Ok [ {[ "name" := VStr "foo"; "data" := VStr "bar" ]};
       {[ "name" := VStr "upload"; "filename" := VStr "a.txt";
          "type" := VStr "text/plain"; "data" := VBuf (bytes "hello") ]} ].
Proof.
  split; [reflexivity|]. exact (parse_text_then_file "XyZ" eq_refl).
Defined.

(** C2 (amended): in a body made of files (header line, info line, blank
    line, payload, line break) and simple fields (header line, blank line,
    one non-empty value line), each followed by the boundary line, with a
    7-bit boundary free of CR and LF, [parse] returns one part per segment
    whose data is exactly the payload bytes of the file, or the value line
    of the field, provided no payload has ['--' + boundary] among its bytes
    other than CR and LF. *)
Theorem part_data_exact b es :
  text b → Forall (wf_entry b) es →
  ∃ ps, parse (encode b (map segment_of es)) b = Ok ps ∧
        Forall2 (λ e p, p !! "data" = Some (entry_data e)) es ps.
Proof.
  intros Hb Hwf. exists (map expected_part es).
  split; [by apply parse_entries|].
  apply Forall2_fmap_r, Forall_Forall2_diag, Forall_forall.
  intros [n v|n f t p] _; unfold compose, expected_part, entry_data; cbv beta iota.
  - by rewrite lookup_insert_ne, lookup_singleton_eq.
  - by rewrite !lookup_insert_ne, lookup_singleton_eq.
Qed.

(** The two entries of [body1] and the boundary [XyZ]. *)
Lemma two_entries_wf : Forall (wf_entry "XyZ") two_entries.
Proof.
  repeat constructor; try done.
  apply infixb_false. vm_compute. reflexivity.
Defined.

Lemma part_data_exact_witness :
  text "XyZ" ∧ Forall (wf_entry "XyZ") two_entries ∧
  ∃ ps, parse body1 "XyZ" = Ok ps ∧
        Forall2 (λ e p, p !! "data" = Some (entry_data e)) two_entries ps.
Proof.
  split; [reflexivity|]. split; [exact two_entries_wf|].
  exact (part_data_exact "XyZ" two_entries eq_refl two_entries_wf).
Defined.

(** C2, counterexample: a simple field whose value has two lines.  The
    bytes between the header block and the line break before the closing
    boundary line are [line1 CRLF line2], and the data of the part is
    [line1]. *)
Lemma multiline_field_counterexample :
  parse body_two_lines "XyZ" =
    Ok [ {[ "name" := VStr "foo"; "data" := VStr "line1" ]} ] ∧
  VStr "line1" ≠ VStr (toString two_lines).
Proof. split; [vm_compute; reflexivity|]. vm_compute. congruence. Qed.

(** C3: a file payload that holds the bytes of ['--' + boundary] with a lone
    LF among them, or right after a line as long as the candidate window, is
    cut there: the data of the part is not the payload. *)
Theorem roundtrip_lost_at_false_boundary :
  parse (encode "XyZ"
           [segment_of (FileField "upload" "a.txt" "text/plain" payload_lone_LF)])
    "XyZ"
  = Ok [ {[ "name" := VStr "upload"; "filename" := VStr "a.txt";
            "type" := VStr "text/plain";
            "data" := VBuf (bytes "--" ++ [x0a] ++ bytes "X") ]} ] ∧
  bytes "--" ++ [x0a] ++ bytes "X" ≠ payload_lone_LF ∧
  parse (encode "XyZ"
           [segment_of (FileField "upload" "a.txt" "text/plain" payload_long_line)])
    "XyZ"
  = Ok [ {[ "name" := VStr "upload"; "filename" := VStr "a.txt";
            "type" := VStr "text/plain";
            "data" := VBuf (bytes "123456") ]} ] ∧
  bytes "123456" ≠ payload_long_line.
Proof.
  split; [vm_compute; reflexivity|]. split; [vm_compute; congruence|].
  split; [vm_compute; reflexivity|]. vm_compute; congruence.
Qed.

(** C6: a body in which ['--' + boundary] occurs nowhere, and so on no
    line, but in which a lone LF splits it, is parsed to one part. *)
Theorem split_boundary_line_is_found :
  ¬ infix (delim "XyZ") body_split_boundary ∧
  parse body_split_boundary "XyZ" =
  Ok [ {[ "name" := VStr "foo"; "data" := VStr "bar" ]} ].
Proof. split; [apply infixb_false|]; vm_compute; reflexivity. Qed.


(** C8: the emitted body depends on the reset of the candidate line.  In
    the body of one file whose payload is the line [12345678--XyZtail], the
    scanner empties the candidate line at the eighth byte, finds
    ['--' + boundary] in what follows and emits the six bytes [123456]; the
    scanner without the reset emits the payload whole.  On [body1], where
    no reset takes place, the two return the same parts. *)
Theorem emitted_body_depends_on_reset :
  parse body_long_line "XyZ" =
    Ok [ {[ "name" := VStr "upload"; "filename" := VStr "a.txt";
            "type" := VStr "text/plain"; "data" := VBuf (bytes "123456") ]} ] ∧
  parse_no_reset body_long_line "XyZ" =
    Ok [ {[ "name" := VStr "upload"; "filename" := VStr "a.txt";
            "type" := VStr "text/plain"; "data" := VBuf payload_long_line ]} ] ∧
  bytes "123456" ≠ payload_long_line ∧
  parse_no_reset body1 "XyZ" = parse body1 "XyZ".
Proof.
  split; [vm_compute; reflexivity|]. split; [vm_compute; reflexivity|].
  split; [vm_compute; congruence|]. vm_compute; reflexivity.
Qed.

Section AssemblyAtBoundary.

(** The scanner has read [pre], is in state 4, and the byte [x] completes
    the boundary line: [process] runs. *)
Context (b : string) (pre : list byte) (x : byte) (rest : list byte)
        (s : scanner).
Hypothesis Hb : seven_bit b.
Hypothesis Hpre : run b init pre = Ok s.
Hypothesis Hstate : state s = 4.
Hypothesis Hfound : lastline2 b s x = delim b.

(** For C5, the bytes read so far are 7-bit and the header line has no
    unicode escape: there [toString] is what the decoding of the bytes
    gives, and [JSON.parse] is exact. *)
Hypothesis Hpre7 : seven_bit (toString pre).
Hypothesis Hescape : ¬ has_sub "\u" (header s).


(** C10: when the third line of the segment is empty, [process] takes the
    file branch, which reads header segment 2 first; when the header line
    has no such segment, as for a simple field with an empty value, the
    whole call of [parse] ends in a [TypeError]. *)
Theorem empty_field_line_fails :
  fieldInfo s = "" →
  process (found_part b s x) =
    process_file (JS.split ";" (header s)) (found_part b s x) ∧
  (JS.split ";" (header s) !! 2 = None →
   obj (JS.split ";" (header s) !! 2) = Throw TypeError ∧
   parse (pre ++ x :: rest) b = Throw TypeError).
Proof using Hb Hpre Hstate Hfound.
  intros Hf.
  assert (process (found_part b s x) =
          process_file (JS.split ";" (header s)) (found_part b s x)) as Hp.
  { unfold process. cbn [found_part RawPart.fieldInfo RawPart.header].
    by rewrite Hf. }
  split; [done|]. intros H2. split; [by rewrite H2|].
  eapply parse_throw_at_found; [done..|].
  rewrite Hp. unfold process_file. by rewrite H2.
Qed.

End AssemblyAtBoundary.


(** The field [foo] with an empty value. *)
Lemma empty_field_line_fails_witness :
  seven_bit "XyZ" ∧
  run "XyZ" init empty_value_pre = Ok empty_value_state ∧
  state empty_value_state = 4 ∧
  lastline2 "XyZ" empty_value_state "Z"%byte = delim "XyZ" ∧
  fieldInfo empty_value_state = "" ∧
  JS.split ";" (header empty_value_state) !! 2 = None ∧
  parse (empty_value_pre ++ "Z"%byte :: bytes "--" ++ CRLF) "XyZ" = Throw TypeError.
Proof.
  assert (run "XyZ" init empty_value_pre = Ok empty_value_state) as H1
    by (vm_compute; reflexivity).
  split; [reflexivity|]. split; [exact H1|]. split; [reflexivity|].
  split; [reflexivity|]. split; [reflexivity|]. split; [reflexivity|].
  exact (proj2 (proj2 (empty_field_line_fails "XyZ" empty_value_pre "Z"%byte
                         (bytes "--" ++ CRLF) empty_value_state
                         eq_refl H1 eq_refl eq_refl eq_refl) eq_refl)).
Defined.

(** C4: [getBoundary] splits the header value on [;] and trims each
    segment; for the leftmost segment that contains [boundary] it splits
    that segment on [=] and returns the second portion, trimmed; when no
    segment contains [boundary] it returns the empty string.  The two
    examples of the specification hold. *)
Theorem getBoundary_first_match header :
  (Forall (λ seg, ¬ has_sub "boundary" (JS.trim seg)) (JS.split ";" header) →
   getBoundary header = "") ∧
  (∀ pre seg post v,
     JS.split ";" header = pre ++ seg :: post →
     Forall (λ seg, ¬ has_sub "boundary" (JS.trim seg)) pre →
     has_sub "boundary" (JS.trim seg) →
     JS.split "=" (JS.trim seg) !! 1 = Some v →
     getBoundary header = JS.trim v) ∧
  getBoundary "multipart/form-data; boundary=ABC123" = "ABC123" ∧
  getBoundary "text/plain" = "".
Proof.
  unfold getBoundary. split; [apply getBoundary_loop_none|]. split; [|done].
  intros pre seg post v -> Hpre Hseg Hv.
  by rewrite getBoundary_loop_first, Hv.
Qed.

Lemma no_boundary_in s :
  (0 <=? JS.indexOf "boundary" s)%Z = false → ¬ has_sub "boundary" s.
Proof. apply indexOf_neg. Qed.

(** The header value [a=b; boundary= XY ;c]. *)
Lemma getBoundary_first_match_witness :
  JS.split ";" "a=b; boundary= XY ;c" = ["a=b"] ++ " boundary= XY " :: ["c"] ∧
  Forall (λ seg, ¬ has_sub "boundary" (JS.trim seg)) ["a=b"] ∧
  has_sub "boundary" (JS.trim " boundary= XY ") ∧
  JS.split "=" (JS.trim " boundary= XY ") !! 1 = Some " XY" ∧
  getBoundary "a=b; boundary= XY ;c" = "XY".
Proof.
  assert (Forall (λ seg, ¬ has_sub "boundary" (JS.trim seg)) ["a=b"]) as H1
    by (repeat constructor; apply no_boundary_in; reflexivity).
  assert (has_sub "boundary" (JS.trim " boundary= XY ")) as H2
    by (exists "", "= XY"; reflexivity).
  split; [reflexivity|]. split; [exact H1|]. split; [exact H2|].
  split; [reflexivity|].
  exact (proj1 (proj2 (getBoundary_first_match "a=b; boundary= XY ;c"))
           ["a=b"] " boundary= XY " ["c"] " XY" eq_refl H1 H2 eq_refl).
Defined.

(** C9 (amended): when the leftmost segment of the header value that
    contains [boundary] has no [=], [getBoundary] returns the nine
    characters [undefined]. *)
Theorem getBoundary_undefined header pre seg post :
  JS.split ";" header = pre ++ seg :: post →
  Forall (λ seg, ¬ has_sub "boundary" (JS.trim seg)) pre →
  has_sub "boundary" (JS.trim seg) →
  all_chars (is_not "=") seg = true →
  getBoundary header = "undefined" ∧ String.length (getBoundary header) = 9.
Proof.
  intros Hs Hpre Hseg Heq. unfold getBoundary.
  rewrite Hs, getBoundary_loop_first by done.
  by rewrite split_no_sep by by apply trim_all.
Qed.

(** The header value [multipart/form-data; boundary]. *)
Lemma getBoundary_undefined_witness :
  JS.split ";" "multipart/form-data; boundary" =
    ["multipart/form-data"] ++ " boundary" :: [] ∧
  Forall (λ seg, ¬ has_sub "boundary" (JS.trim seg)) ["multipart/form-data"] ∧
  has_sub "boundary" (JS.trim " boundary") ∧
  all_chars (is_not "=") " boundary" = true ∧
  getBoundary "multipart/form-data; boundary" = "undefined".
Proof.
  assert (Forall (λ seg, ¬ has_sub "boundary" (JS.trim seg)) ["multipart/form-data"])
    as H1 by (repeat constructor; apply no_boundary_in; reflexivity).
  assert (has_sub "boundary" (JS.trim " boundary")) as H2
    by (exists "", ""; reflexivity).
  split; [reflexivity|]. split; [exact H1|]. split; [exact H2|].
  split; [reflexivity|].
  exact (proj1 (getBoundary_undefined "multipart/form-data; boundary"
                  ["multipart/form-data"] " boundary" [] eq_refl H1 H2 eq_refl)).
Defined.

(** C9, counterexample: the header value [boundary=x; boundary] has a
    segment that contains [boundary] and no [=], its second one, and
    [getBoundary] returns [x], from the first. *)
Lemma getBoundary_later_segment_counterexample :
  (∃ seg, seg ∈ JS.split ";" "boundary=x; boundary" ∧
          has_sub "boundary" seg ∧ all_chars (is_not "=") seg = true) ∧
  getBoundary "boundary=x; boundary" = "x" ∧
  getBoundary "boundary=x; boundary" ≠ "undefined".
Proof.
  split; [|split; [reflexivity|discriminate]].
  exists " boundary". split; [|split; [|reflexivity]].
  - vm_compute. apply list_elem_of_further, list_elem_of_here.
  - by exists " ", "".
Qed.

(** * Further properties of the code

    What the code shows beyond the claims: of the scanner on whole bodies,
    of the assembler, of [getBoundary], and of the middleware, numbered
    [X1] to [X16]. *)

(** ** The scanner: line breaks and states *)

Lemma newLineDetected_true p x :
  newLineDetected p x = true → p = Some x0d ∧ x = x0a.
Proof.
  unfold newLineDetected. rewrite andb_true_iff. intros [Hx Hp].
  apply Byte.byte_dec_bl in Hx. destruct p as [p|]; [|done].
  apply Byte.byte_dec_bl in Hp. by subst.
Qed.

Lemma run_without_CRLF b rest : ∀ s,
  state s = 0 → ¬ infix CRLF (prev_list s ++ rest) →
  ∃ s', run b s rest = Ok s' ∧ state s' = 0 ∧ allParts s' = allParts s.
Proof.
  induction rest as [|x rest IH]; intros s H0 Hn.
  - by exists s.
  - assert (newLineDetected (prevByte s) x = false) as Hnld.
    { destruct (newLineDetected (prevByte s) x) eqn:E; [|done].
      apply newLineDetected_true in E as [Hp ->]. exfalso. apply Hn.
      unfold prev_list. rewrite Hp. by exists [], rest. }
    change (run b s (x :: rest)) with (s1 ← step b s x; run b s1 rest).
    rewrite step_other, bind_Ok; [|by rewrite H0|done].
    edestruct IH as (s' & Hr & ? & ?); [| |exists s'; split; [exact Hr|done]].
    + done.
    + unfold prev_list. proj. intros Hi. apply Hn.
      change (x :: rest) with ([x] ++ rest). by apply infix_app_r.
Qed.

(** X1: a body in which no LF comes right after a CR yields no part and no
    exception, whatever else it holds: the scanner leaves state 0 only at a
    CR LF pair, so a body whose lines end in a bare LF is read as having no
    boundary line at all. *)
Theorem parse_needs_CRLF b body :
  ¬ infix CRLF body → parse body b = Ok [].
Proof.
  intros H. unfold parse.
  destruct (run_without_CRLF b body init) as (s' & -> & _ & Ha); [done|done|].
  by rewrite bind_Ok, Ha.
Qed.

(** [body1] with bare LF for every line break. *)
Lemma parse_needs_CRLF_witness :
  ¬ infix CRLF body1_LF ∧ parse body1_LF "XyZ" = Ok [].
Proof.
  assert (¬ infix CRLF body1_LF) as H by (apply infixb_false; vm_compute; reflexivity).
  split; [exact H|]. exact (parse_needs_CRLF "XyZ" body1_LF H).
Defined.

(** ** What the scanner holds *)

Lemma lastline2_length b s x : length (lastline2 b s x) ≤ String.length b + 4.
Proof.
  unfold lastline2. destruct (Nat.ltb_spec (String.length b + 4) (length (lastline1 s x))).
  - simpl. lia.
  - done.
Qed.

Lemma step_bounded b s x s' :
  bounded b s → step b s x = Ok s' → bounded b s'.
Proof.
  intros (H5 & H4 & Hb). destruct (decide (state s = 4)) as [E4|E4].
  - destruct (decide (lastline2 b s x = delim b)) as [Hd|Hd].
    + rewrite step_found by done. destruct (process _); [|done].
      rewrite bind_Ok. intros [= <-]. split; [proj; lia|]. by split.
    + rewrite step_body by done. intros [= <-]. split; [proj; lia|].
      split; [|by proj]. intros _. proj.
      destruct (newLineDetected _ _); [simpl; lia|apply lastline2_length].
  - specialize (Hb E4). destruct (newLineDetected (prevByte s) x) eqn:En.
    + assert (state s ∈ [0; 1; 2; 3; 5]) as Hin.
      { destruct (state s) as [|[|[|[|[|[|n]]]]]]; try lia; set_solver. }
      rewrite step_newline by done.
      generalize (String.eqb (dashes b) (toString (lastline1 s x))).
      intros e H. injection H as <-. unfold bounded. proj. set_unfold in Hin.
      destruct Hin as [E|[E|[E|[E|[E|[]]]]]]; rewrite E; cbv beta iota;
        repeat case_decide; try lia; try destruct e;
        (split; [lia|]); (split; [intros; simpl; lia|]); intros; try done; lia.
    + rewrite step_other by done. intros [= <-]. by repeat split; proj.
Qed.

Lemma run_bounded b bs : ∀ s s',
  bounded b s → run b s bs = Ok s' → bounded b s'.
Proof.
  induction bs as [|x bs IH]; intros s s' Hs.
  - by intros [= <-].
  - change (run b s (x :: bs)) with (s1 ← step b s x; run b s1 bs).
    destruct (step b s x) as [s1|e] eqn:E; [|done]. rewrite bind_Ok.
    apply IH. by eapply step_bounded.
Qed.

(** X2: after any bytes that the scanner reads without an exception, the
    state is one of 0 to 5, the candidate line [lastline] is at most four
    bytes longer than the boundary whenever a part body is being read
    (state 4), and [buffer] is empty in every other state: the bytes of a
    part are held only while that part is open. *)
Theorem scanner_memory_bounded b body s :
  run b init body = Ok s →
  state s ≤ 5 ∧
  (state s = 4 → length (lastline s) ≤ String.length b + 4) ∧
  (state s ≠ 4 → buffer s = []).
Proof.
  intros H. eapply run_bounded; [|exact H].
  repeat split; simpl; try done; lia.
Qed.

(** The scanner inside the value of a field, four bytes into a line. *)
Lemma scanner_memory_bounded_witness :
  run "XyZ" init bad_name_pre = Ok bad_name_state ∧
  state bad_name_state = 4 ∧
  length (lastline bad_name_state) ≤ String.length "XyZ" + 4.
Proof.
  assert (run "XyZ" init bad_name_pre = Ok bad_name_state) as H
    by (vm_compute; reflexivity).
  split; [exact H|]. split; [reflexivity|].
  exact (proj1 (proj2 (scanner_memory_bounded "XyZ" bad_name_pre bad_name_state H))
           eq_refl).
Defined.

(** ** Prefixes of the body *)

(** X3: reading more bytes never takes back what was read.  When [parse]
    returns on a body, it returns on every prefix of that body, and the
    parts of the prefix are the first parts of the whole, unchanged; when
    [parse] throws on a prefix, it throws the same exception on every body
    that starts with it. *)
Theorem parse_prefix_monotone b pre rest :
  (∀ ps, parse (pre ++ rest) b = Ok ps →
         ∃ ps0, parse pre b = Ok ps0 ∧ ps0 `prefix_of` ps) ∧
  (∀ e, parse pre b = Throw e → parse (pre ++ rest) b = Throw e).
Proof.
  unfold parse. rewrite run_app. split.
  - intros ps. destruct (run b init pre) as [s|e]; [|done]. rewrite !bind_Ok.
    destruct (run b s rest) as [s'|e] eqn:E; [|done]. rewrite bind_Ok.
    intros [= <-]. apply run_allParts in E as [rs ->].
    exists (allParts s). split; [done|]. by exists rs.
  - intros e. by destruct (run b init pre).
Qed.

(** [body1] cut inside its second part, and the prefix that ends after the
    first. *)
Lemma parse_prefix_monotone_witness :
  parse (body1_first ++ body1_cut) "XyZ" =
    Ok [ {[ "name" := VStr "foo"; "data" := VStr "bar" ]} ] ∧
  ∃ ps0, parse body1_first "XyZ" = Ok ps0 ∧
         ps0 `prefix_of` [ {[ "name" := VStr "foo"; "data" := VStr "bar" ]} ].
Proof.
  assert (parse (body1_first ++ body1_cut) "XyZ" =
            Ok [ {[ "name" := VStr "foo"; "data" := VStr "bar" ]} ]) as H
    by (vm_compute; reflexivity).
  split; [exact H|].
  exact (proj1 (parse_prefix_monotone "XyZ" body1_first body1_cut) _ H).
Defined.

(** ** Before the first boundary line *)

Lemma run_preamble b pre : ∀ s,
  state s = 0 → ¬ infix (delim b) (lastline s ++ visible pre) →
  ∃ s', run b s pre = Ok s' ∧ state s' = 0 ∧ allParts s' = allParts s ∧
        lastline s' `suffix_of` (lastline s ++ visible pre).
Proof.
  induction pre as [|x pre IH]; intros s H0 Hn.
  - exists s. simpl. by rewrite app_nil_r.
  - change (x :: pre) with ([x] ++ pre) in Hn.
    rewrite visible_app, app_assoc, <-lastline1_visible in Hn.
    change (run b s (x :: pre)) with (s1 ← step b s x; run b s1 pre).
    assert (lastline1 s x ≠ delim b) as Hne.
    { intros E. apply Hn. rewrite E. apply infix_prefix. }
    destruct (newLineDetected (prevByte s) x) eqn:En.
    + rewrite step_newline; [|done|rewrite H0; set_solver].
      rewrite H0. cbv beta iota.
      destruct (String.eqb _ _) eqn:Eq; [by apply eqb_toString in Eq|].
      rewrite bind_Ok. repeat case_decide; try done.
      edestruct IH as (s' & Hr & Hs & Ha & Hl); [| |exists s'; split; [exact Hr|]].
      * done.
      * proj. intros Hi. apply Hn. by apply infix_app_r.
      * split; [done|]. split; [done|]. revert Hl. proj. intros Hl.
        change (x :: pre) with ([x] ++ pre).
        rewrite visible_app, app_assoc, <-lastline1_visible.
        etrans; [exact Hl|]. by apply suffix_app_r.
    + rewrite step_other; [|by rewrite H0|done]. rewrite bind_Ok.
      edestruct IH as (s' & Hr & Hs & Ha & Hl); [| |exists s'; split; [exact Hr|]].
      * done.
      * done.
      * split; [done|]. split; [done|]. revert Hl. proj. intros Hl.
        change (x :: pre) with ([x] ++ pre).
        by rewrite visible_app, app_assoc, <-lastline1_visible.
Qed.

Lemma process_entries b es :
  text b → Forall (wf_entry b) es →
  mapM_outcome process (map (raw_of b) (map segment_of es)) =
    Ok (map expected_part es).
Proof.
  intros Hb Hwf. rewrite <-parse_encode.
  - by apply parse_entries.
  - by apply text_delim_visible.
  - eapply Forall_fmap, Forall_impl; [done|]. apply wf_entry_segment.
Qed.

(** X4: bytes before the first boundary line are skipped.  A well-formed body
    (as in C2) that comes after any bytes [pre] and a line break parses to
    the same parts as without them, provided [pre] does not hold
    ['--' + boundary] among its bytes other than CR and LF. *)
Theorem preamble_ignored b pre es :
  text b → Forall (wf_entry b) es →
  ¬ infix (delim b) (visible pre) →
  parse (pre ++ CRLF ++ encode b (map segment_of es)) b =
    Ok (map expected_part es).
Proof.
  intros Hb Hwf Hn. unfold parse, encode.
  pose proof (text_delim_visible b Hb) as Hd.
  rewrite run_app.
  destruct (run_preamble b pre init) as (s0 & -> & H0 & Ha0 & Hl0); [done|done|].
  rewrite bind_Ok, run_app, run_CRLF; [|rewrite H0; set_solver].
  rewrite H0. cbv beta iota. repeat case_decide; try done.
  destruct (String.eqb _ _) eqn:Eq.
  { apply eqb_toString in Eq. exfalso. apply Hn. destruct Hl0 as [k Hk].
    simpl in Hk. rewrite Hk, Eq. exists k, []. by rewrite app_nil_r. }
  rewrite bind_Ok, run_app, run_visible; [|done|done]. rewrite bind_Ok. proj.
  match goal with |- context [run b ?s (encode_rest _ _)] =>
    pose proof (run_segments b (map segment_of es) s Hd) as Hrun end.
  rewrite process_entries in Hrun by done.
  destruct Hrun as (s' & -> & Ha).
  - left. by split.
  - eapply Forall_fmap, Forall_impl; [done|]. apply wf_entry_segment.
  - rewrite bind_Ok, Ha. proj. by rewrite Ha0.
Qed.

Lemma preamble_ignored_witness :
  text "XyZ" ∧ Forall (wf_entry "XyZ") two_entries ∧
  ¬ infix (delim "XyZ") (visible (bytes "This is the preamble.")) ∧
  parse (bytes "This is the preamble." ++ CRLF ++ body1) "XyZ" =
    Ok (map expected_part two_entries).
Proof.
  assert (¬ infix (delim "XyZ") (visible (bytes "This is the preamble."))) as H
    by (apply infixb_false; vm_compute; reflexivity).
  split; [reflexivity|]. split; [exact two_entries_wf|]. split; [exact H|].
  exact (preamble_ignored "XyZ" _ two_entries eq_refl two_entries_wf H).
Defined.

Lemma run_open_segments b gs : ∀ s,
  Forall is_visible (delim b) → after_delim b s →
  Forall (wf_segment b) gs →
  match mapM_outcome process (map (raw_of b) gs) with
  | Ok rs => ∃ s', run b s (encode_open_rest b gs) = Ok s' ∧
                   allParts s' = allParts s ++ rs ∧
                   (gs = [] ∧ s' = s ∨ state s' = 5 ∧ lastline s' = [])
  | Throw e => run b s (encode_open_rest b gs) = Throw e
  end.
Proof.
  induction gs as [|g gs IH]; intros s Hd Hs Hwf.
  - cbn [encode_open_rest map mapM_outcome]. exists s.
    split; [done|]. split; [by rewrite app_nil_r|by left].
  - apply Forall_cons in Hwf as [Hg Hwf].
    cbn [encode_open_rest map mapM_outcome].
    rewrite run_app, run_CRLF
      by (destruct Hs as [[-> _]|[-> _]]; set_solver).
    rewrite bind_Ok. set (s1 := {| prevByte := Some x0a |}).
    assert (state s1 = 1 ∧ lastline s1 = [] ∧ allParts s1 = allParts s)
      as (H1 & Hl1 & Ha1).
    { subst s1. proj. destruct Hs as [[-> ->]|[-> ->]].
      - assert (String.eqb (dashes b) (toString (delim b)) = true) as ->
          by by apply eqb_toString.
        done.
      - done. }
    rewrite app_assoc, run_app.
    pose proof (run_segment b s1 g H1 Hl1 Hd Hg) as Hrun.
    destruct (process (raw_of b g)) as [r|e]; [|by rewrite Hrun].
    destruct Hrun as (s2 & -> & H5 & Hl2 & Ha2).
    rewrite !bind_Ok.
    specialize (IH s2 Hd (or_intror (conj H5 Hl2)) Hwf).
    destruct (mapM_outcome process (map (raw_of b) gs)) as [rs|e].
    + destruct IH as (s' & -> & Ha & Hs'). exists s'. split; [done|].
      split; [by rewrite Ha, Ha2, Ha1, <-app_assoc|].
      right. by destruct Hs' as [[_ ->]|?].
    + by rewrite IH.
Qed.

(** X15: a part is complete at the last byte of the boundary line after it,
    and what follows the last boundary line does not count.  A well-formed
    body (as in C2) with at least one entry, cut right after its last
    boundary line and followed by any bytes that do not hold
    ['--' + boundary] among those other than CR and LF, parses to the parts
    of its entries: with the closing [--] and a line break, with nothing at
    all, or with an epilogue. *)
Theorem after_last_boundary_ignored b es tail :
  text b → Forall (wf_entry b) es → es ≠ [] →
  ¬ infix (delim b) (visible tail) →
  parse (encode_open b (map segment_of es) ++ tail) b = Ok (map expected_part es).
Proof.
  intros Hb Hwf Hne Htail. unfold parse, encode_open.
  pose proof (text_delim_visible b Hb) as Hd.
  rewrite <-app_assoc, run_app.
  destruct (run_opening b Hd) as (s & -> & Hs & Ha).
  rewrite bind_Ok, run_app.
  pose proof (run_open_segments b (map segment_of es) s Hd Hs) as Hrun.
  rewrite process_entries in Hrun by done.
  destruct Hrun as (s' & -> & Ha' & Hs').
  { eapply Forall_fmap, Forall_impl; [done|]. apply wf_entry_segment. }
  rewrite bind_Ok.
  assert (lastline s' = []) as Hl.
  { destruct Hs' as [[H0 _]|[_ Hl]]; [|done]. by destruct es. }
  destruct (run_quiet b tail s') as (s2 & -> & Ha2 & _); [by rewrite Hl|].
  by rewrite bind_Ok, Ha2, Ha', Ha.
Qed.

(** [body1] without its closing hyphens, and with an epilogue. *)
Lemma after_last_boundary_ignored_witness :
  text "XyZ" ∧ Forall (wf_entry "XyZ") two_entries ∧ two_entries ≠ [] ∧
  ¬ infix (delim "XyZ") (visible (CRLF ++ bytes "epilogue")) ∧
  parse (encode_open "XyZ" (map segment_of two_entries)) "XyZ" =
    Ok (map expected_part two_entries) ∧
  parse (encode_open "XyZ" (map segment_of two_entries) ++ CRLF ++ bytes "epilogue")
    "XyZ" = Ok (map expected_part two_entries).
Proof.
  assert (¬ infix (delim "XyZ") (visible (CRLF ++ bytes "epilogue"))) as H
    by (apply infixb_false; vm_compute; reflexivity).
  assert (¬ infix (delim "XyZ") (visible [])) as H0
    by (apply infixb_false; vm_compute; reflexivity).
  assert (two_entries ≠ []) as Hne by discriminate.
  split; [reflexivity|]. split; [exact two_entries_wf|]. split; [exact Hne|].
  split; [exact H|]. split.
  - rewrite <-(app_nil_r (encode_open "XyZ" (map segment_of two_entries))).
    exact (after_last_boundary_ignored "XyZ" two_entries [] eq_refl two_entries_wf
             Hne H0).
  - exact (after_last_boundary_ignored "XyZ" two_entries _ eq_refl two_entries_wf
             Hne H).
Defined.

(** ** What [process] returns *)

Lemma process_data p r :
  process p = Ok r →
  (RawPart.fieldInfo p ≠ "" ∧ r !! "data" = Some (VStr (RawPart.fieldInfo p))) ∨
  (RawPart.fieldInfo p = "" ∧ r !! "data" = Some (VBuf (RawPart.part p)) ∧
   ∃ t, r !! "type" = Some (VStr t)).
Proof.
  unfold process. destruct (String.eqb_spec (RawPart.fieldInfo p) "") as [E|E];
    cbn [negb].
  - unfold process_file. destruct (obj (_ !! 2)) as [file|]; [|done].
    rewrite bind_Ok. destruct (obj (_ !! 1)) as [fileField|]; [|done].
    rewrite bind_Ok. cbv zeta. destruct (JS.split ":" _ !! 1) as [t|]; [|done].
    intros [= <-]. right. split; [done|]. split; [by rewrite lookup_insert_eq|].
    exists (JS.trim t). rewrite lookup_insert_ne by done. by rewrite lookup_insert_eq.
  - unfold process_field. destruct (obj (_ !! 1)) as [field|]; [|done].
    rewrite bind_Ok. intros [= <-]. left. split; [done|]. by rewrite lookup_insert_eq.
Qed.

Lemma process_has_data p r : process p = Ok r → has_data r.
Proof.
  intros [[? ?]|(? & ? & t & ?)]%process_data; [left|right]; eauto.
Qed.

Lemma step_parts_Forall (P : gmap string jsval → Prop) b s x s1 :
  (∀ p r, process p = Ok r → P r) →
  step b s x = Ok s1 → Forall P (allParts s) → Forall P (allParts s1).
Proof.
  intros HP. destruct (decide (state s = 4)) as [H4|H4].
  - destruct (decide (lastline2 b s x = delim b)) as [Hd|Hd].
    + rewrite (step_found b s x H4 Hd).
      destruct (process _) as [r|e] eqn:E; [|done].
      rewrite bind_Ok. intros [= <-] Hs. proj. apply Forall_app. split; [done|].
      apply Forall_singleton. by eapply HP.
    + rewrite (step_body b s x H4 Hd). by intros [= <-].
  - destruct (step_quiet b s x) as (s' & -> & Ha & _); [by left|].
    intros [= <-]. by rewrite Ha.
Qed.

Lemma run_parts_Forall (P : gmap string jsval → Prop) b bs : ∀ s s',
  (∀ p r, process p = Ok r → P r) →
  run b s bs = Ok s' → Forall P (allParts s) → Forall P (allParts s').
Proof.
  induction bs as [|x bs IH]; intros s s' HP.
  - by intros [= <-].
  - change (run b s (x :: bs)) with (s1 ← step b s x; run b s1 bs).
    destruct (step b s x) as [s1|e] eqn:E; [|done]. rewrite bind_Ok.
    intros Hr Hs. eapply IH; [done|done|]. by eapply step_parts_Forall.
Qed.

Lemma parse_has_data body b ps :
  parse body b = Ok ps → Forall has_data ps.
Proof.
  unfold parse. destruct (run b init body) as [s|e] eqn:E; [|done].
  rewrite bind_Ok. intros [= <-].
  eapply run_parts_Forall; [apply process_has_data|done|done].
Qed.

(** X5: every part that [parse] returns has a [data] property, whatever
    the body and the header lines were: a non-empty string, for a part read
    as a simple field, or a Buffer, and then the part has a string [type]
    as well.  No part comes without data, and no data is an empty
    string. *)
Theorem parts_have_data body b ps :
  parse body b = Ok ps → Forall has_data ps.
Proof. apply parse_has_data. Qed.

Lemma parts_have_data_witness :
  parse body1 "XyZ" = Ok parts1 ∧ Forall has_data parts1.
Proof.
  assert (parse body1 "XyZ" = Ok parts1) as H by (vm_compute; reflexivity).
  split; [exact H|]. exact (parts_have_data body1 "XyZ" parts1 H).
Defined.

(** ** Separators inside a quoted value *)

Lemma str_app_nil_r s : s +:+ "" = s.
Proof. induction s as [|c s IH]; [done|]. by rewrite str_app_cons, IH. Qed.

Lemma split_head sep a r :
  all_chars (is_not sep) a = true →
  ∃ h t, JS.split sep r = h :: t ∧ JS.split sep (a +:+ r) = (a +:+ h) :: t.
Proof.
  destruct (split_cons sep r) as (h & t & Hr). intros Ha. exists h, t.
  split; [done|]. induction a as [|c a IH].
  - by rewrite !str_app_nil.
  - rewrite !str_app_cons. revert Ha. simpl. unfold is_not at 1.
    rewrite andb_true_iff, negb_true_iff. intros [-> Ha]. by rewrite IH.
Qed.

Lemma string_chars_open s :
  all_chars is_plain s = true → JSON.string_chars JSON.SNormal s = None.
Proof.
  induction s as [|c s IH]; [done|]. simpl all_chars.
  rewrite andb_true_iff. intros [Hc Hs].
  by rewrite string_chars_plain_char, IH.
Qed.

Lemma trim_end_cons c s :
  JS.is_space c = false → JS.trim_end (String c s) = String c (JS.trim_end s).
Proof. intros Hc. simpl. destruct (JS.trim_end s); [by rewrite Hc|done]. Qed.

(** [obj] on a segment whose value opens a quote that it does not close. *)
Lemma obj_open_quote seg v :
  JS.split "=" seg !! 1 = Some (String dq v) → plain v →
  obj (Some seg) = Throw SyntaxError.
Proof.
  intros Hs Hv. unfold obj.
  destruct (split_cons "=" seg) as (h & t & Hk). rewrite Hk in *.
  cbn [lookup list_lookup] in *. rewrite Hs.
  rewrite not_literal_throws; [done|].
  exists (JS.trim_end v). split.
  - unfold JS.trim. cbn [JS.trim_start]. change (JS.is_space dq) with false.
    cbv iota. by apply trim_end_cons.
  - intros str. rewrite string_chars_open; [done|]. by apply trim_end_all.
Qed.

(** The first [;]-segment of a parameter whose value has a [;] or a [=]
    after the plain text [v1]: its value is cut after [v1]. *)
Lemma param_cut k v1 c v2 :
  all_chars (is_not ";") k = true → all_chars (is_not "=") k = true →
  plain v1 → c = ";"%char ∨ c = "="%char →
  ∃ seg t, JS.split ";" (param k (v1 +:+ String c v2)) = seg :: t ∧
           JS.split "=" seg !! 1 = Some (String dq v1).
Proof.
  intros Hk1 Hk2 Hv Hc.
  assert (all_chars (is_not ";") v1 = true) as Hv1
    by (eapply all_chars_impl; [apply plain_not_semi|done]).
  assert (all_chars (is_not "=") v1 = true) as Hv2
    by (eapply all_chars_impl; [apply plain_not_eq|done]).
  assert (∀ r, param k (v1 +:+ String c v2) = r →
    r = (String " " k +:+ String "=" (String dq v1)) +:+ String c (v2 +:+ String dq ""))
    as Hshape.
  { intros r <-. unfold param, quote.
    change (" " +:+ k +:+ "=" +:+ ?q) with (String " " k +:+ String "=" q).
    by rewrite !str_app_assoc, !str_app_cons, ?str_app_assoc, ?str_app_cons. }
  rewrite (Hshape _ eq_refl).
  assert (JS.split "=" (String " " k +:+ String "=" (String dq v1))
          = [String " " k; String dq v1]) as Hseg.
  { rewrite split_app_sep by (simpl; by rewrite Hk2).
    rewrite split_no_sep; [done|]. simpl. by rewrite Hv2. }
  destruct Hc as [-> | ->].
  - eexists _, _. split.
    + apply split_app_sep. rewrite all_chars_app. simpl. by rewrite Hk1, Hv1.
    + by rewrite Hseg.
  - destruct (split_head ";" (String " " k +:+ String "=" (String dq v1))
                (String "=" (v2 +:+ String dq ""))) as (h & t & Hr & ->).
    { rewrite all_chars_app. simpl. by rewrite Hk1, Hv1. }
    eexists _, _. split; [done|].
    simpl in Hr. destruct (JS.split ";" (v2 +:+ String dq "")) as [|h' t'];
      injection Hr as <- <-.
    + rewrite str_app_assoc, (str_app_cons "=").
      rewrite split_app_sep by (simpl; by rewrite Hk2).
      rewrite split_app_sep by (simpl; by rewrite Hv2). done.
    + rewrite str_app_assoc, (str_app_cons "=").
      rewrite split_app_sep by (simpl; by rewrite Hk2).
      rewrite split_app_sep by (simpl; by rewrite Hv2). done.
Qed.

Lemma line_app s t : line s → line t → line (s +:+ t).
Proof. unfold line. rewrite bytes_app. apply Forall_app_2. Qed.

Lemma line_cons c s : is_line_char c = true → line s → line (String c s).
Proof.
  intros Hc Hs. unfold line, bytes. simpl. apply Forall_cons. split; [|done].
  unfold is_visible. unfold is_line_char in Hc. by apply negb_true_iff in Hc.
Qed.

Lemma line_quote s : line s → line (quote s).
Proof.
  intros Hs. unfold quote. apply line_cons; [by vm_compute|].
  apply line_app; [done|]. apply line_cons; [by vm_compute|apply Forall_nil_2].
Qed.

Lemma line_quote_sep n1 c n2 :
  plain n1 → c = ";"%char ∨ c = "="%char → text n2 →
  line (quote (n1 +:+ String c n2)).
Proof.
  intros H1 Hc H2. apply line_quote, line_app.
  - apply text_line. eapply all_chars_impl; [apply plain_text|done].
  - apply line_cons; [destruct Hc as [-> | ->]; by vm_compute|]. by apply text_line.
Qed.

Lemma line_quote_plain n : plain n → line (quote n).
Proof.
  intros Hn. apply line_quote, text_line.
  eapply all_chars_impl; [apply plain_text|done].
Qed.

Lemma param_shape k v1 c v2 :
  param k (v1 +:+ String c v2) =
  (String " " k +:+ String "=" (String dq v1)) +:+ String c (v2 +:+ String dq "").
Proof.
  unfold param, quote.
  change (" " +:+ k +:+ "=" +:+ ?q) with (String " " k +:+ String "=" q).
  by rewrite !str_app_assoc, !str_app_cons, ?str_app_assoc, ?str_app_cons.
Qed.

Lemma process_file_name_cut b n1 c n2 f t p :
  plain n1 → plain n2 → c = ";"%char ∨ c = "="%char → plain f →
  process (raw_of b (segment_of (FileField (n1 +:+ String c n2) f t p))) =
    Throw (name_cut_error c).
Proof.
  intros Hn1 Hn2 Hc Hf.
  assert (all_chars (is_not ";") n1 = true) as Hs1
    by (eapply all_chars_impl; [apply plain_not_semi|done]).
  assert (all_chars (is_not ";") n2 = true) as Hs2
    by (eapply all_chars_impl; [apply plain_not_semi|done]).
  assert (all_chars (is_not "=") n1 = true) as He1
    by (eapply all_chars_impl; [apply plain_not_eq|done]).
  assert (all_chars (is_not "=") n2 = true) as He2
    by (eapply all_chars_impl; [apply plain_not_eq|done]).
  assert (all_chars (is_not ";") (param "filename" f) = true) as HF.
  { apply all_chars_param; try done.
    eapply all_chars_impl; [apply plain_not_semi|done]. }
  unfold process. cbn [raw_of segment_of RawPart.header RawPart.fieldInfo].
  change (String.eqb "" "") with true. cbn [negb].
  unfold process_file, disposition.
  change ("Content-Disposition: form-data" +:+ ";" +:+ ?r)
    with ("Content-Disposition: form-data" +:+ String ";" r).
  rewrite split_app_sep by done.
  change (?a +:+ ";" +:+ ?r) with (a +:+ String ";" r).
  destruct Hc as [-> | ->].
  - rewrite param_shape, str_app_assoc, (str_app_cons ";").
    rewrite split_app_sep by (rewrite all_chars_app; simpl; by rewrite Hs1).
    rewrite split_app_sep by (rewrite all_chars_app, Hs2; reflexivity).
    rewrite (split_no_sep ";") by done.
    cbn [lookup list_lookup].
    rewrite (obj_no_eq (n2 +:+ String dq "")); [reflexivity|]. rewrite all_chars_app, He2. reflexivity.
  - rewrite split_app_sep.
    2:{ apply all_chars_param; try done. rewrite all_chars_app. simpl. by rewrite Hs1, Hs2. }
    rewrite (split_no_sep ";") by done.
    cbn [lookup list_lookup]. rewrite (obj_param "filename" f) by done. rewrite bind_Ok.
    destruct (param_cut "name" n1 "=" n2) as (seg & tl & Hs & Hseg); try done; [by right|].
    rewrite (split_no_sep ";") in Hs.
    2:{ apply all_chars_param; try done. rewrite all_chars_app. simpl. by rewrite Hs1, Hs2. }
    injection Hs as <- _.
    rewrite (obj_open_quote _ n1) by done. reflexivity.
Qed.

(** X6: a [;] or a [=] inside a quoted parameter value makes [parse] throw.
    [process] cuts the header line at every [;] and each parameter at every
    [=] without regard to quotes.  In the name of a simple field and in the
    filename of a file, what [JSON.parse] gets is a string literal that is
    never closed: a [SyntaxError].  In the name of a file, whose name and
    filename are plain otherwise, a [;] leaves the third segment of the
    header line without [=], a [TypeError], and a [=] leaves the name
    unclosed, a [SyntaxError]. *)
Theorem separator_in_value_fails b n1 c n2 v n f1 f2 t p :
  text b → plain n1 → text n2 → c = ";"%char ∨ c = "="%char →
  text v → v ≠ "" →
  plain n → plain f1 → text f2 → text t → ¬ infix (delim b) (visible p) →
  parse (encode b [segment_of (TextField (n1 +:+ String c n2) v)]) b
    = Throw SyntaxError ∧
  parse (encode b [segment_of (FileField n (f1 +:+ String c f2) t p)]) b
    = Throw SyntaxError ∧
  (plain n2 →
   parse (encode b [segment_of (FileField (n1 +:+ String c n2) f1 t p)]) b
     = Throw (name_cut_error c)).
Proof.
  intros Hb Hn1 Hn2 Hc Hv Hne Hn Hf1 Hf2 Ht Hp.
  pose proof (text_delim_visible b Hb) as Hd.
  split; [|split].
  3:{ intros Hp2. rewrite parse_encode; [|done|].
      - cbn [map mapM_outcome]. by rewrite process_file_name_cut.
      - apply Forall_singleton. split; [|split; [|done]].
        + unfold segment_of, disposition, param.
          repeat apply line_app; try by apply line_chars.
          * by apply line_quote_sep.
          * by apply line_quote_plain.
        + unfold segment_of, content_type.
          repeat apply line_app; try by apply line_chars. by apply text_line. }
  - rewrite parse_encode; [|done|].
    + cbn [map mapM_outcome segment_of raw_of]. unfold process.
      cbn [RawPart.header RawPart.fieldInfo].
      apply String.eqb_neq in Hne. rewrite Hne. cbn [negb].
      unfold process_field, disposition.
      change (?a +:+ ";" +:+ ?r) with (a +:+ String ";" r).
      rewrite split_app_sep by done.
      destruct (param_cut "name" n1 c n2) as (seg & tl & -> & Hseg); try done.
      cbn [lookup list_lookup]. by rewrite (obj_open_quote seg n1).
    + apply Forall_singleton. split; [|by apply text_line].
      unfold disposition, param. repeat apply line_app; try by apply line_chars.
      by apply line_quote_sep.
  - rewrite parse_encode; [|done|].
    + cbn [map mapM_outcome segment_of raw_of]. unfold process.
      cbn [RawPart.header RawPart.fieldInfo].
      change (String.eqb "" "") with true. cbn [negb].
      unfold process_file, disposition.
      change ("Content-Disposition: form-data" +:+ ";" +:+ ?r)
        with ("Content-Disposition: form-data" +:+ String ";" r).
      rewrite split_app_sep by done.
      change (?a +:+ ";" +:+ ?r) with (a +:+ String ";" r).
      rewrite split_app_sep.
      2:{ apply all_chars_param; try done.
          eapply all_chars_impl; [apply plain_not_semi|done]. }
      destruct (param_cut "filename" f1 c f2) as (seg & tl & -> & Hseg); try done.
      cbn [lookup list_lookup]. by rewrite (obj_open_quote seg f1).
    + apply Forall_singleton. split; [|split; [|done]].
      * unfold disposition, param. repeat apply line_app; try by apply line_chars.
        -- by apply line_quote_plain.
        -- by apply line_quote_sep.
      * unfold content_type. repeat apply line_app; try by apply line_chars.
        by apply text_line.
Qed.

(** A field named [a;b], a file [a=b.txt], and a file named [a;b]. *)
Lemma separator_in_value_fails_witness :
  ¬ infix (delim "XyZ") (visible (bytes "hello")) ∧
  parse (encode "XyZ" [segment_of (TextField "a;b" "1")]) "XyZ" = Throw SyntaxError ∧
  parse (encode "XyZ" [segment_of (FileField "up" "a=b.txt" "text/plain" (bytes "hello"))])
    "XyZ" = Throw SyntaxError ∧
  parse (encode "XyZ" [segment_of (FileField "a;b" "a" "text/plain" (bytes "hello"))])
    "XyZ" = Throw TypeError.
Proof.
  assert (¬ infix (delim "XyZ") (visible (bytes "hello"))) as H
    by (apply infixb_false; vm_compute; reflexivity).
  assert ("1" ≠ "") as Hne by discriminate.
  split; [exact H|]. split; [|split].
  - exact (proj1 (separator_in_value_fails "XyZ" "a" ";" "b" "1" "up" "a" "b.txt"
                    "text/plain" (bytes "hello") eq_refl eq_refl eq_refl
                    (or_introl eq_refl) eq_refl Hne
                    eq_refl eq_refl eq_refl eq_refl H)).
  - exact (proj1 (proj2 (separator_in_value_fails "XyZ" "a" "=" "b" "1" "up" "a"
                    "b.txt" "text/plain" (bytes "hello") eq_refl eq_refl eq_refl
                    (or_intror eq_refl) eq_refl Hne
                    eq_refl eq_refl eq_refl eq_refl H))).
  - exact (proj2 (proj2 (separator_in_value_fails "XyZ" "a" ";" "b" "1" "up" "a"
                    "b.txt" "text/plain" (bytes "hello") eq_refl eq_refl eq_refl
                    (or_introl eq_refl) eq_refl Hne
                    eq_refl eq_refl eq_refl eq_refl H)) eq_refl).
Defined.

Lemma line_disposition e :
  match e with
  | TextField n _ => plain n
  | FileField n f _ _ => plain n ∧ plain f
  end → line (disposition e).
Proof.
  destruct e as [n v|n f t p]; simpl.
  - intros ?. apply line_chars. by rewrite !all_chars_app, line_param.
  - intros [? ?]. apply line_chars. by rewrite !all_chars_app, !line_param.
Qed.

Lemma line_content_type t : text t → line (content_type t).
Proof.
  intros Ht. unfold content_type. repeat apply line_app; try by apply line_chars.
  by apply text_line.
Qed.

(** X7: the header parameters are read by position, not by name.  For a file
    whose header line has [filename] before [name], the second segment is
    asked for a [name] and has none, and the part is what the third
    segment gives, with [type] and [data]: it has the name and no
    [filename] at all. *)
Theorem filename_before_name b n f t p :
  text b → plain n → plain f →
  text t → all_chars (is_not ":") t = true → JS.trim t = t →
  ¬ infix (delim b) (visible p) →
  parse (encode b [FileSeg (disposition_swapped n f) (content_type t) p]) b =
    Ok [ {[ "name" := VStr n; "type" := VStr t; "data" := VBuf p ]} ].
Proof.
  intros Hb Hn Hf Ht Hc Htrim Hp.
  rewrite parse_encode; [|by apply text_delim_visible|].
  - cbn [map mapM_outcome raw_of]. unfold process.
    cbn [RawPart.header RawPart.fieldInfo].
    change (String.eqb "" "") with true. cbn [negb].
    unfold disposition_swapped.
    change ("Content-Disposition: form-data" +:+ ";" +:+ ?r)
      with ("Content-Disposition: form-data" +:+ String ";" r).
    rewrite split_app_sep by done.
    change (?a +:+ ";" +:+ ?r) with (a +:+ String ";" r).
    rewrite split_app_sep.
    2:{ apply all_chars_param; try done.
        eapply all_chars_impl; [apply plain_not_semi|done]. }
    rewrite split_no_sep.
    2:{ apply all_chars_param; try done.
        eapply all_chars_impl; [apply plain_not_semi|done]. }
    unfold process_file. cbn [lookup list_lookup].
    rewrite !obj_param by done. rewrite !bind_Ok.
    change (JS.trim (" " +:+ "name")) with "name".
    change (JS.trim (" " +:+ "filename")) with "filename".
    rewrite lookup_singleton_ne by done. cbn [RawPart.info RawPart.part].
    unfold content_type.
    change ("Content-Type" +:+ ":" +:+ " " +:+ t)
      with ("Content-Type" +:+ String ":" (String " " t)).
    rewrite split_app_sep by done.
    rewrite split_no_sep by (simpl; by rewrite Hc).
    cbn [lookup list_lookup].
    change (JS.trim (String " " t)) with (JS.trim t). rewrite Htrim.
    rewrite !bind_Ok.
    assert (∀ m m' : gmap string jsval, m = m' → Ok [m] = Ok [m']) as Hm
      by by intros ?? ->.
    apply Hm. map_ext.
  - apply Forall_singleton. split; [|split; [by apply line_content_type|done]].
    unfold disposition_swapped, param.
    repeat apply line_app; try by apply line_chars.
    all: by apply line_quote_plain.
Qed.

Lemma filename_before_name_witness :
  ¬ infix (delim "XyZ") (visible (bytes "hello")) ∧
  parse (encode "XyZ" [FileSeg (disposition_swapped "upload" "a.txt")
                         (content_type "text/plain") (bytes "hello")]) "XyZ" =
    Ok [ {[ "name" := VStr "upload"; "type" := VStr "text/plain";
            "data" := VBuf (bytes "hello") ]} ].
Proof.
  assert (¬ infix (delim "XyZ") (visible (bytes "hello"))) as H
    by (apply infixb_false; vm_compute; reflexivity).
  split; [exact H|].
  exact (filename_before_name "XyZ" "upload" "a.txt" "text/plain" (bytes "hello")
           eq_refl eq_refl eq_refl eq_refl eq_refl eq_refl H).
Defined.

(** X8: the third line after a boundary line decides what a part is.  A
    file whose header block has one more line after the content type (a
    third header) is returned as a simple field: its [data] is that third
    line as a string, and the name comes from the header line; the
    filename, the content type and the payload are not in the part.  The
    parts after it are read as usual. *)
Theorem extra_header_line_makes_field b n f t x p es :
  text b → plain n → plain f → text t → text x → x ≠ "" →
  ¬ infix (delim b) (visible p) →
  Forall (wf_entry b) es →
  parse (delim b ++ CRLF ++
         encode_three_lines (disposition (FileField n f t p)) (content_type t) x p ++
         delim b ++ encode_rest b (map segment_of es)) b =
    Ok ({[ "name" := VStr n; "data" := VStr x ]} :: map expected_part es).
Proof.
  intros Hb Hn Hf Ht Hx Hne Hp Hwf.
  pose proof (text_delim_visible b Hb) as Hd.
  pose proof (line_disposition (FileField n f t p) (conj Hn Hf)) as Hh.
  pose proof (line_content_type t Ht) as Hi.
  unfold parse, encode_three_lines.
  rewrite run_app, run_visible by done. rewrite bind_Ok.
  rewrite run_app, run_CRLF by (proj; set_solver). rewrite bind_Ok. proj.
  change (state init) with 0. change (lastline init) with (@nil byte).
  rewrite app_nil_l. cbv beta iota.
  assert (String.eqb (dashes b) (toString (delim b)) = true) as ->
    by by apply eqb_toString.
  repeat case_decide; try done.
  rewrite <-!app_assoc.
  rewrite run_header_then, run_info_then, run_field_then by (done || by apply text_line).
  proj.
  replace (CRLF ++ p ++ CRLF ++ delim b ++ encode_rest b (map segment_of es))
    with (((CRLF ++ p) ++ CRLF ++ delim b) ++ encode_rest b (map segment_of es))
    by by rewrite <-!app_assoc.
  rewrite run_app, run_payload; try done.
  proj. unfold process at 1. cbn [RawPart.header RawPart.fieldInfo].
  apply String.eqb_neq in Hne. rewrite Hne. cbn [negb].
  unfold process_field. rewrite split_disposition_file by done.
  cbn [lookup list_lookup]. rewrite obj_param by done.
  rewrite !bind_Ok. cbn [RawPart.fieldInfo].
  change (JS.trim (" " +:+ "name")) with "name".
  match goal with |- context [run b ?s (encode_rest _ _)] =>
    pose proof (run_segments b (map segment_of es) s Hd) as Hrun end.
  rewrite process_entries in Hrun by done.
  destruct Hrun as (s' & -> & Ha).
  - right. by split.
  - eapply Forall_fmap, Forall_impl; [done|]. apply wf_entry_segment.
  - rewrite bind_Ok, Ha. proj.
    assert (∀ (m m' : gmap string jsval) l, m = m' → Ok ([m] ++ l) = Ok (m' :: l))
      as Hm by by intros ??? ->.
    rewrite app_nil_l. apply Hm. map_ext.
Qed.

(** An upload with a [Content-Transfer-Encoding] line, before the field
    [foo]. *)
Lemma extra_header_line_makes_field_witness :
  ¬ infix (delim "XyZ") (visible (bytes "hello")) ∧
  Forall (wf_entry "XyZ") [TextField "foo" "bar"] ∧
  parse (delim "XyZ" ++ CRLF ++
         encode_three_lines
           (disposition (FileField "upload" "a.txt" "text/plain" (bytes "hello")))
           (content_type "text/plain") "Content-Transfer-Encoding: binary"
           (bytes "hello") ++
         delim "XyZ" ++ encode_rest "XyZ" (map segment_of [TextField "foo" "bar"]))
    "XyZ" =
    Ok ({[ "name" := VStr "upload";
           "data" := VStr "Content-Transfer-Encoding: binary" ]}
        :: map expected_part [TextField "foo" "bar"]).
Proof.
  assert (¬ infix (delim "XyZ") (visible (bytes "hello"))) as H
    by (apply infixb_false; vm_compute; reflexivity).
  assert (Forall (wf_entry "XyZ") [TextField "foo" "bar"]) as Hwf
    by (repeat constructor; discriminate).
  assert ("Content-Transfer-Encoding: binary" ≠ "") as Hne by discriminate.
  split; [exact H|]. split; [exact Hwf|].
  exact (extra_header_line_makes_field "XyZ" "upload" "a.txt" "text/plain"
           "Content-Transfer-Encoding: binary" (bytes "hello")
           [TextField "foo" "bar"] eq_refl eq_refl eq_refl eq_refl eq_refl Hne H Hwf).
Defined.

(** ** Header lines under other names *)

Lemma split_disposition_as h0 e :
  all_chars (is_not ";") h0 = true →
  match e with
  | TextField n _ => plain n
  | FileField n f _ _ => plain n ∧ plain f
  end →
  JS.split ";" (disposition_as h0 e) =
  h0 :: match e with
        | TextField n _ => [param "name" n]
        | FileField n f _ _ => [param "name" n; param "filename" f]
        end.
Proof.
  intros H0 He. destruct e as [n v|n f t p]; unfold disposition_as.
  - change (?a +:+ ";" +:+ ?r) with (a +:+ String ";" r).
    rewrite split_app_sep by done.
    rewrite split_no_sep; [done|].
    apply all_chars_param; try done.
    eapply all_chars_impl; [apply plain_not_semi|done].
  - destruct He as [Hn Hf].
    change (h0 +:+ ";" +:+ ?r) with (h0 +:+ String ";" r).
    rewrite split_app_sep by done.
    change (?a +:+ ";" +:+ ?r) with (a +:+ String ";" r).
    rewrite split_app_sep.
    2:{ apply all_chars_param; try done.
        eapply all_chars_impl; [apply plain_not_semi|done]. }
    rewrite split_no_sep; [done|].
    apply all_chars_param; try done.
    eapply all_chars_impl; [apply plain_not_semi|done].
Qed.

Lemma process_entry_as b h0 i0 e :
  all_chars (is_not ";") h0 = true → all_chars (is_not ":") i0 = true →
  wf_entry b e →
  process (raw_of b (segment_as h0 i0 e)) = Ok (expected_part e).
Proof.
  intros H0 Hi0 He. destruct e as [n v|n f t p].
  - destruct He as (Hn & Hv & Hne). unfold process.
    cbn [raw_of segment_as RawPart.header RawPart.fieldInfo].
    apply String.eqb_neq in Hne. rewrite Hne. cbn [negb].
    rewrite (split_disposition_as h0 (TextField n v)) by done.
    unfold process_field. cbn [lookup list_lookup].
    rewrite obj_param by done. rewrite bind_Ok. cbn [RawPart.fieldInfo].
    change (JS.trim (" " +:+ "name")) with "name".
    f_equal; unfold expected_part; map_ext.
  - destruct He as (Hn & Hne & Hf & Ht & Hc & Htrim & Hp). unfold process.
    cbn [raw_of segment_as RawPart.header RawPart.fieldInfo].
    change (String.eqb "" "") with true. cbn [negb].
    rewrite (split_disposition_as h0 (FileField n f t p)) by done.
    unfold process_file. cbn [lookup list_lookup].
    rewrite !obj_param by done. rewrite !bind_Ok.
    change (JS.trim (" " +:+ "name")) with "name".
    change (JS.trim (" " +:+ "filename")) with "filename".
    rewrite lookup_singleton_eq. cbn [truthy].
    apply String.eqb_neq in Hne. rewrite Hne. cbn [negb RawPart.info RawPart.part].
    unfold info_as.
    change (i0 +:+ ":" +:+ " " +:+ t) with (i0 +:+ String ":" (String " " t)).
    rewrite split_app_sep by done.
    rewrite split_no_sep by (simpl; by rewrite Hc).
    cbn [lookup list_lookup].
    change (JS.trim (String " " t)) with (JS.trim t). rewrite Htrim.
    f_equal; unfold expected_part; map_ext.
Qed.

Lemma wf_segment_as b h0 i0 e :
  line h0 → line i0 → wf_entry b e → wf_segment b (segment_as h0 i0 e).
Proof.
  intros H0 Hi0. destruct e as [n v|n f t p]; simpl.
  - intros (? & ? & ?). split; [|by apply text_line].
    unfold param. repeat apply line_app; try done; try by apply line_chars.
    by apply line_quote_plain.
  - intros (? & ? & ? & ? & ? & ? & ?). repeat split; [| |done].
    + unfold param. repeat apply line_app; try done; try by apply line_chars.
      all: by apply line_quote_plain.
    + unfold info_as. repeat apply line_app; try done; try by apply line_chars.
      by apply text_line.
Qed.

(** X16: the names of the header lines are not looked at.  In a well-formed
    body (as in C2), any text without [;] in the place of
    [Content-Disposition: form-data] and any name without [:] in the place
    of [Content-Type] give the same parts: [process] reads the parameters
    after the first [;] and the text after the first [:] only. *)
Theorem header_names_not_checked b h0 i0 es :
  text b →
  line h0 → all_chars (is_not ";") h0 = true →
  line i0 → all_chars (is_not ":") i0 = true →
  Forall (wf_entry b) es →
  parse (encode b (map (segment_as h0 i0) es)) b = Ok (map expected_part es).
Proof.
  intros Hb Hh0 H0 Hi0 Hi Hwf. rewrite parse_encode.
  - induction Hwf as [|e es He _ IH]; [done|].
    cbn [map mapM_outcome]. by rewrite IH, process_entry_as.
  - by apply text_delim_visible.
  - eapply Forall_fmap, Forall_impl; [done|]. intros e. by apply wf_segment_as.
Qed.

(** [body1] with other names on its header lines. *)
Lemma header_names_not_checked_witness :
  text "XyZ" ∧ line "X-Anything" ∧ line "Content-Length" ∧
  Forall (wf_entry "XyZ") two_entries ∧
  parse (encode "XyZ" (map (segment_as "X-Anything" "Content-Length") two_entries))
    "XyZ" = Ok (map expected_part two_entries).
Proof.
  assert (line "X-Anything") as H1 by (apply line_chars; reflexivity).
  assert (line "Content-Length") as H2 by (apply line_chars; reflexivity).
  split; [reflexivity|]. split; [exact H1|]. split; [exact H2|].
  split; [exact two_entries_wf|].
  exact (header_names_not_checked "XyZ" "X-Anything" "Content-Length" two_entries
           eq_refl H1 eq_refl H2 eq_refl two_entries_wf).
Defined.

(** ** [split] and [trim], piece by piece *)

Lemma split_app sep a r :
  JS.split sep (a +:+ String sep r) = JS.split sep a ++ JS.split sep r.
Proof.
  induction a as [|c a IH].
  - rewrite str_app_nil. simpl. by rewrite Ascii.eqb_refl.
  - rewrite str_app_cons. simpl. rewrite IH.
    destruct (Ascii.eqb c sep); [done|].
    by destruct (split_cons sep a) as (h & t & ->).
Qed.

Lemma split_first_prefix sep s h t :
  JS.split sep s = h :: t → ∃ c, s = h +:+ c.
Proof.
  revert h t. induction s as [|c0 s IH]; intros h t; simpl.
  - intros [= <- <-]. by exists "".
  - destruct (Ascii.eqb c0 sep); [intros [= <- <-]; by eexists|].
    destruct (split_cons sep s) as (h' & t' & E). rewrite E.
    intros [= <- <-]. destruct (IH _ _ E) as [c ->]. by exists c.
Qed.

Lemma split_piece_sub sep s x :
  x ∈ JS.split sep s → ∃ a c, s = a +:+ x +:+ c.
Proof.
  revert x. induction s as [|c0 s IH]; intros x; simpl.
  - intros ->%list_elem_of_singleton. by exists "", "".
  - destruct (Ascii.eqb c0 sep).
    + intros [->|Hx]%elem_of_cons; [by exists "", (String c0 s)|].
      destruct (IH _ Hx) as (a & c & ->). by exists (String c0 a), c.
    + destruct (split_cons sep s) as (h' & t' & E). rewrite E in *.
      intros [->|Hx]%elem_of_cons.
      * destruct (split_first_prefix _ _ _ _ E) as [c ->]. by exists "", c.
      * destruct (IH x) as (a & c & ->); [by right|]. by exists (String c0 a), c.
Qed.

Lemma split_pieces_no_sep sep s :
  Forall (λ x, all_chars (is_not sep) x = true) (JS.split sep s).
Proof.
  induction s as [|c s IH]; simpl; [by repeat constructor|].
  destruct (Ascii.eqb c sep) eqn:Ec; [by constructor|].
  destruct (JS.split sep s) as [|h t]; [|apply Forall_cons in IH as [Hh Ht]];
    constructor; try done; simpl; unfold is_not at 1; by rewrite Ec.
Qed.

Lemma split_pieces_all P sep s :
  all_chars P s = true → Forall (λ x, all_chars P x = true) (JS.split sep s).
Proof.
  induction s as [|c s IH]; simpl; [by repeat constructor|].
  rewrite andb_true_iff. intros [Hc Hs]. specialize (IH Hs).
  destruct (Ascii.eqb c sep); [by constructor|].
  destruct (JS.split sep s) as [|h t]; [|apply Forall_cons in IH as [Hh Ht]];
    constructor; try done; simpl; by rewrite Hc.
Qed.

Lemma trim_start_suffix s : ∃ a, s = a +:+ JS.trim_start s.
Proof.
  induction s as [|c s [a IH]]; [by exists ""|]. simpl.
  destruct (JS.is_space c); [|by exists ""].
  exists (String c a). by rewrite str_app_cons, <-IH.
Qed.

Lemma trim_end_prefix s : ∃ c, s = JS.trim_end s +:+ c.
Proof.
  induction s as [|c0 s [c IH]]; [by exists ""|]. simpl.
  destruct (JS.trim_end s) as [|a r'] eqn:E.
  - destruct (JS.is_space c0); [by exists (String c0 s)|].
    exists c. rewrite str_app_nil in IH. by rewrite <-IH.
  - exists c. by rewrite str_app_cons, <-IH.
Qed.

Lemma trim_sub s : ∃ a c, s = a +:+ JS.trim s +:+ c.
Proof.
  destruct (trim_start_suffix s) as [a Ha].
  destruct (trim_end_prefix (JS.trim_start s)) as [c Hc].
  exists a, c. unfold JS.trim. by rewrite <-Hc.
Qed.

Lemma has_sub_within p x s a c : has_sub p x → s = a +:+ x +:+ c → has_sub p s.
Proof.
  intros (a' & c' & ->) ->. exists (a +:+ a'), (c' +:+ c).
  by rewrite !str_app_assoc.
Qed.

Lemma trim_fixed t : JS.trim t = t → JS.trim_start t = t ∧ JS.trim_end t = t.
Proof.
  intros Ht. destruct (trim_start_suffix t) as [a Ha].
  destruct (trim_end_prefix (JS.trim_start t)) as [c Hc].
  fold (JS.trim t) in Hc. rewrite Ht in Hc.
  assert (a = "" ∧ c = "") as [-> ->].
  { assert (String.length t = String.length a + (String.length t + String.length c)) as Hl.
    { rewrite Ha at 1. by rewrite Hc, !str_length_app. }
    destruct a, c; simpl in Hl; try lia. done. }
  rewrite str_app_nil in Ha. rewrite <-Ha. split; [done|].
  unfold JS.trim in Ht. by rewrite <-Ha in Ht.
Qed.

Lemma trim_end_app a t :
  JS.trim_end t = t → t ≠ "" → JS.trim_end (a +:+ t) = a +:+ t.
Proof.
  intros Ht Hne. induction a as [|c a IH]; [by rewrite str_app_nil|].
  rewrite str_app_cons. simpl. rewrite IH.
  destruct a; [rewrite str_app_nil; by destruct t|by rewrite str_app_cons].
Qed.

Lemma trim_end_idem s : JS.trim_end (JS.trim_end s) = JS.trim_end s.
Proof.
  induction s as [|c s IH]; [done|]. simpl.
  destruct (JS.trim_end s) as [|a r] eqn:E.
  - destruct (JS.is_space c) eqn:Ec; [done|]. simpl. by rewrite Ec.
  - remember (String a r) as r' eqn:Er. simpl. rewrite IH. by subst r'.
Qed.

Lemma trim_start_solid s : starts_solid (JS.trim_start s).
Proof. induction s as [|c s IH]; [done|]. simpl. by destruct (JS.is_space c) eqn:E. Qed.

Lemma trim_end_solid s : starts_solid s → starts_solid (JS.trim_end s).
Proof.
  destruct s as [|c s]; [done|]. intros Hc. by rewrite trim_end_cons.
Qed.

Lemma solid_trim_start s : starts_solid s → JS.trim_start s = s.
Proof. destruct s as [|c s]; [done|]. simpl. by intros ->. Qed.

Lemma trim_idem s : JS.trim (JS.trim s) = JS.trim s.
Proof.
  unfold JS.trim at 1. rewrite solid_trim_start.
  - apply trim_end_idem.
  - apply trim_end_solid, trim_start_solid.
Qed.

(** ** The token that [getBoundary] returns *)

Lemma getBoundary_loop_token items :
  Forall (λ x, all_chars (is_not ";") x = true) items →
  all_chars (is_not ";") (getBoundary_loop items) = true ∧
  all_chars (is_not "=") (getBoundary_loop items) = true ∧
  JS.trim (getBoundary_loop items) = getBoundary_loop items.
Proof.
  induction 1 as [|it items Hit _ IH]; [done|].
  cbn [getBoundary_loop JS.to_str]. cbv zeta.
  destruct (_ <=? _)%Z; [|done].
  split; [|split]; [| |apply trim_idem].
  - apply trim_all. destruct (_ !! 1) as [x|] eqn:E; [|done]. simpl.
    eapply (Forall_lookup_1 _ _ _ _ (split_pieces_all _ "=" _ (trim_all _ _ Hit)) E).
  - apply trim_all. destruct (_ !! 1) as [x|] eqn:E; [|done]. simpl.
    eapply (Forall_lookup_1 _ _ _ _ (split_pieces_no_sep "=" _) E).
Qed.

(** X9: whatever the header value, what [getBoundary] returns has no [;]
    and no [=] in it, and neither begins nor ends with white space: the
    value of the parameter is cut at its first [=] (a boundary such as
    [a=b] comes back as [a]) and trimmed. *)
Theorem getBoundary_token header :
  all_chars (is_not ";") (getBoundary header) = true ∧
  all_chars (is_not "=") (getBoundary header) = true ∧
  JS.trim (getBoundary header) = getBoundary header.
Proof. apply getBoundary_loop_token, split_pieces_no_sep. Qed.

Lemma getBoundary_with_boundary m t post :
  ¬ has_sub "boundary" m →
  all_chars (is_not ";") t = true → all_chars (is_not "=") t = true →
  JS.trim t = t →
  post = "" ∨ (∃ r, post = String ";" r) →
  getBoundary (with_boundary m t post) = t.
Proof.
  intros Hm Ht1 Ht2 Ht Hpost. unfold getBoundary, with_boundary.
  change (m +:+ ";" +:+ " boundary=" +:+ t +:+ post)
    with (m +:+ String ";" (" boundary=" +:+ t +:+ post)).
  rewrite split_app.
  assert (∃ tl, JS.split ";" (" boundary=" +:+ t +:+ post) = (" boundary=" +:+ t) :: tl)
    as [tl ->].
  { destruct Hpost as [->|[r ->]].
    - exists []. rewrite str_app_nil_r. apply split_no_sep.
      change (" boundary=" +:+ t) with (" boundary" +:+ String "=" t).
      by rewrite all_chars_app.
    - exists (JS.split ";" r). rewrite <-str_app_assoc. apply split_app_sep.
      change (" boundary=" +:+ t) with (" boundary" +:+ String "=" t).
      by rewrite all_chars_app. }
  assert (JS.trim (" boundary=" +:+ t) = "boundary=" +:+ t) as Htrim.
  { unfold JS.trim. change (JS.trim_start (" boundary=" +:+ t)) with ("boundary=" +:+ t).
    destruct (decide (t = "")) as [->|Hne]; [done|].
    apply trim_end_app; [|done]. by apply trim_fixed. }
  rewrite getBoundary_loop_first.
  - rewrite Htrim. change ("boundary=" +:+ t) with ("boundary" +:+ String "=" t).
    rewrite split_app_sep by done. rewrite split_no_sep by done. done.
  - apply Forall_forall. intros x Hx Hsub. apply Hm.
    destruct (split_piece_sub _ _ _ Hx) as (a & c & ->).
    destruct (trim_sub x) as (a' & c' & Hx').
    eapply has_sub_within; [|done].
    eapply has_sub_within; [exact Hsub|exact Hx'].
  - rewrite Htrim. by exists "", ("=" +:+ t).
Qed.

(** X10: [getBoundary] reads back the boundary that a content-type header
    value announces.  For a value made of a media type and parameters [m]
    without the word [boundary], then [; boundary=] and a token [t], then
    nothing or further parameters, it returns [t], provided [t] has no [;]
    and no [=] and no white space at either end. *)
Theorem getBoundary_reads_boundary m t post :
  ¬ has_sub "boundary" m →
  all_chars (is_not ";") t = true → all_chars (is_not "=") t = true →
  JS.trim t = t →
  post = "" ∨ (∃ r, post = String ";" r) →
  getBoundary (with_boundary m t post) = t.
Proof. apply getBoundary_with_boundary. Qed.

(** The header value of the comment in the source, with a charset after
    it. *)
Lemma getBoundary_reads_boundary_witness :
  ¬ has_sub "boundary" "multipart/form-data" ∧
  getBoundary
    "multipart/form-data; boundary=----WebKitFormBoundaryvm5A9tzU1ONaGP5B; charset=utf-8"
    = "----WebKitFormBoundaryvm5A9tzU1ONaGP5B".
Proof.
  assert (¬ has_sub "boundary" "multipart/form-data") as H
    by (apply no_boundary_in; reflexivity).
  split; [exact H|].
  exact (getBoundary_reads_boundary "multipart/form-data"
           "----WebKitFormBoundaryvm5A9tzU1ONaGP5B" "; charset=utf-8"
           H eq_refl eq_refl eq_refl (or_intror (ex_intro _ " charset=utf-8" eq_refl))).
Defined.

(** ** The middleware: what [mapFormData] stores *)

Section MiddlewareLemmas.
Variable ToString : jsval → outcome string.

Lemma mapFormData_frame d part asFile d' k :
  mapFormData ToString d part asFile = Ok (Some d') →
  part_key ToString part ≠ Ok k → d' !! k = d !! k.
Proof.
  unfold mapFormData. destruct (part_key ToString part) as [name|e]; [|done].
  rewrite bind_Ok. intros H Hk.
  assert (name ≠ k) as Hne by congruence.
  destruct (d !! name) as [x|].
  - destruct (isArray x); [|destruct (negb _)]; injection H as <-;
      by rewrite lookup_insert_ne.
  - destruct (bool_decide _); [destruct (String.eqb _ _); [done|]|];
      injection H as <-; by rewrite lookup_insert_ne.
Qed.

Lemma held_snoc_solid k vs v :
  Forall solid vs → solid v →
  ∀ x, held k vs = Some x →
  match isArray x with
  | Some l => held k (vs ++ [v]) = Some (DArr (l ++ [v]))
  | None => dtruthy x = true ∧ held k (vs ++ [v]) = Some (DArr [x; v])
  end.
Proof.
  intros Hvs Hv x. unfold held. destruct vs as [|a vs]; [done|].
  destruct (bool_decide _).
  - destruct vs as [|a' vs]; simpl; intros [= <-]; simpl; by rewrite <-?app_assoc.
  - destruct vs as [|a' vs]; simpl; intros [= <-].
    + apply Forall_cons in Hvs as [[Ht Ha] _]. by rewrite Ha.
    + simpl. done.
Qed.

Lemma mapFormData_total d part asFile key :
  part_key ToString part = Ok key → key ≠ "__proto__" →
  ∃ d', mapFormData ToString d part asFile = Ok (Some d').
Proof.
  intros Hkey Hproto. unfold mapFormData. rewrite Hkey, bind_Ok.
  destruct (d !! key) as [x|].
  - destruct (isArray x); [|destruct (negb _)]; by eexists.
  - destruct (bool_decide _); [|by eexists].
    apply String.eqb_neq in Hproto. rewrite Hproto. by eexists.
Qed.

Lemma mapFormData_held d part asFile k vs key :
  d !! k = held k vs → Forall solid vs →
  part_key ToString part = Ok key → key ≠ "__proto__" →
  solid (partData part asFile) →
  ∃ d', mapFormData ToString d part asFile = Ok (Some d') ∧
        d' !! k = held k (if String.eqb key k
                          then vs ++ [partData part asFile] else vs).
Proof.
  intros Hd Hvs Hkey Hproto Hv.
  destruct (String.eqb_spec key k) as [E|E].
  - unfold mapFormData. rewrite Hkey, bind_Ok, E, Hd.
    destruct (held k vs) as [x|] eqn:Hx.
    + pose proof (held_snoc_solid k vs _ Hvs Hv x Hx) as H.
      destruct (isArray x) as [l|].
      * eexists. split; [done|]. by rewrite lookup_insert_eq.
      * destruct H as [-> H]. eexists. split; [done|]. by rewrite lookup_insert_eq.
    + assert (vs = []) as ->.
      { unfold held in Hx. destruct vs as [|a [|a' vs]]; [done|..];
          by destruct (bool_decide _). }
      unfold held. simpl. destruct (bool_decide _).
      * apply String.eqb_neq in Hproto. rewrite <-E, Hproto, E.
        eexists. split; [done|]. by rewrite lookup_insert_eq.
      * eexists. split; [done|]. by rewrite lookup_insert_eq.
  - destruct (mapFormData_total d part asFile key Hkey Hproto) as [d' Hd'].
    exists d'. split; [done|].
    rewrite (mapFormData_frame _ _ _ _ k Hd'); [done|]. rewrite Hkey. congruence.
Qed.

Lemma values_under_cons asFile k part parts :
  values_under ToString asFile k (part :: parts) =
  (if stored_in ToString asFile k part then [partData part asFile] else [])
    ++ values_under ToString asFile k parts.
Proof. unfold values_under. simpl. by destruct (stored_in _ _ _ _). Qed.

Lemma place_held asFile acc part k vs :
  side asFile acc !! k = held k vs → Forall solid vs → mappable ToString part →
  ∃ acc', place ToString acc part = Ok (Some acc') ∧
    side asFile acc' !! k =
      held k (vs ++ if stored_in ToString asFile k part
                    then [partData part asFile] else []) ∧
    Forall solid (vs ++ if stored_in ToString asFile k part
                        then [partData part asFile] else []).
Proof.
  intros Hd Hvs Hm. unfold place, stored_in.
  destruct (prop_truthy (part !! "name")) eqn:En; cbn [negb andb].
  2:{ exists acc. by rewrite app_nil_r. }
  destruct (Hm En) as [(key & Hkey & Hproto) Hdata].
  clear Hm. rewrite Hkey.
  destruct (prop_truthy (part !! "filename")) eqn:Ef, asFile; cbn [Bool.eqb side andb] in *.
  - destruct (mapFormData_held _ part true k vs key Hd Hvs Hkey Hproto)
      as (d' & -> & Hd'); [by split|].
    exists (d', acc.2). split; [reflexivity|]. cbn [fst].
    destruct (String.eqb _ _); rewrite ?app_nil_r; [|done].
    split; [done|]. apply Forall_app. split; [done|]. by apply Forall_singleton.
  - destruct (mapFormData_total (acc.1) part true key Hkey Hproto) as [d' ->].
    exists (d', acc.2). split; [reflexivity|]. by rewrite app_nil_r.
  - destruct (mapFormData_total (acc.2) part false key Hkey Hproto) as [d' ->].
    exists (acc.1, d'). split; [reflexivity|]. by rewrite app_nil_r.
  - destruct (mapFormData_held _ part false k vs key Hd Hvs Hkey Hproto)
      as (d' & -> & Hd'); [by apply Hdata|].
    exists (acc.1, d'). split; [reflexivity|]. cbn [snd].
    destruct (String.eqb _ _); rewrite ?app_nil_r; [|done].
    split; [done|]. apply Forall_app. split; [done|].
    apply Forall_singleton. by apply Hdata.
Qed.

Lemma forEach_place_held asFile k parts : ∀ acc vs,
  side asFile acc !! k = held k vs → Forall solid vs →
  Forall (mappable ToString) parts →
  ∃ acc', forEach_place ToString acc parts = Ok (Some acc') ∧
    side asFile acc' !! k = held k (vs ++ values_under ToString asFile k parts).
Proof.
  induction parts as [|part parts IH]; intros acc vs Hd Hvs Hm.
  - exists acc. split; [done|]. by rewrite app_nil_r.
  - apply Forall_cons in Hm as [Hp Hm].
    destruct (place_held asFile acc part k vs Hd Hvs Hp) as (acc1 & H1 & Hd1 & Hs1).
    destruct (IH acc1 _ Hd1 Hs1 Hm) as (acc' & H' & Hd').
    exists acc'. split.
    + cbn [forEach_place]. by rewrite H1, bind_Ok.
    + by rewrite values_under_cons, app_assoc.
Qed.

Lemma forEach_place_total parts : ∀ acc,
  Forall (keyed ToString) parts →
  ∃ acc', forEach_place ToString acc parts = Ok (Some acc').
Proof.
  induction parts as [|part parts IH]; intros acc; [by eexists|].
  intros [Hp Hm]%Forall_cons. cbn [forEach_place].
  assert (∃ acc1, place ToString acc part = Ok (Some acc1)) as [acc1 ->].
  { unfold place. destruct (prop_truthy (part !! "name")) eqn:En; cbn [negb];
      [|by eexists].
    destruct (Hp En) as (key & Hkey & Hproto).
    destruct (prop_truthy (part !! "filename")).
    - destruct (mapFormData_total (acc.1) part true key Hkey Hproto) as [d' ->].
      rewrite bind_Ok. by eexists.
    - destruct (mapFormData_total (acc.2) part false key Hkey Hproto) as [d' ->].
      rewrite bind_Ok. by eexists. }
  rewrite bind_Ok. by apply IH.
Qed.

Lemma place_frame acc part acc' asFile k :
  place ToString acc part = Ok (Some acc') →
  (prop_truthy (part !! "name") = true → part_key ToString part ≠ Ok k) →
  side asFile acc' !! k = side asFile acc !! k.
Proof.
  unfold place. destruct (prop_truthy (part !! "name")); cbn [negb].
  2:{ by intros [= <-]. }
  intros H Hk. specialize (Hk eq_refl).
  destruct (prop_truthy (part !! "filename")).
  - destruct (mapFormData _ _ _ _) as [[d'|]|] eqn:E; [|done..]. injection H as <-.
    destruct asFile; [|done]. cbn [side fst]. by eapply mapFormData_frame.
  - destruct (mapFormData _ _ _ _) as [[d'|]|] eqn:E; [|done..]. injection H as <-.
    destruct asFile; [done|]. cbn [side snd]. by eapply mapFormData_frame.
Qed.

Lemma forEach_place_frame asFile k parts : ∀ acc acc',
  forEach_place ToString acc parts = Ok (Some acc') →
  Forall (λ part, prop_truthy (part !! "name") = true →
                  part_key ToString part ≠ Ok k) parts →
  side asFile acc' !! k = side asFile acc !! k.
Proof.
  induction parts as [|part parts IH]; intros acc acc'.
  - by intros [= <-].
  - cbn [forEach_place]. destruct (place _ _ _) as [[acc1|]|] eqn:E; [|done..].
    rewrite bind_Ok. intros H [Hp Hm]%Forall_cons. rewrite (IH _ _ H Hm).
    by eapply place_frame.
Qed.

Lemma has_data_solid r : has_data r → solid (partData r false).
Proof.
  unfold partData. intros [(v & Hv & ->)|(p & t & -> & _)]; [|done].
  split; [|done]. simpl. by apply String.eqb_neq in Hv as ->.
Qed.

Lemma held_fresh k vs : k ∉ Object_prototype → held k vs = collect vs.
Proof.
  intros Hk. unfold held. rewrite bool_decide_false by done. by destruct vs.
Qed.

Lemma held_inherited k vs :
  k ∈ Object_prototype → vs ≠ [] → held k vs = Some (DArr (DInherited k :: vs)).
Proof.
  intros Hk Hvs. unfold held. rewrite bool_decide_true by done. by destruct vs.
Qed.

(** The handler on a body that [parse] accepts and whose names convert. *)
Lemma middleware_held req ct ps :
  Request.content_type req = Some ct →
  parse (Request.body req) (getBoundary ct) = Ok ps →
  Forall (keyed ToString) ps →
  ∃ files fields,
    middleware ToString req =
      Ok (Some (Request.mk (Some ct) (Request.body req) (Some files) (Some fields))) ∧
    ∀ k,
      (default ∅ (Request.files req) !! k = None →
       files !! k = held k (values_under ToString true k ps)) ∧
      (default ∅ (Request.fields req) !! k = None →
       fields !! k = held k (values_under ToString false k ps)).
Proof.
  intros Hct Hps Hkeys. unfold middleware. rewrite Hct. cbv zeta.
  rewrite Hps, bind_Ok.
  assert (Forall (mappable ToString) ps) as Hm.
  { pose proof (parse_has_data _ _ _ Hps) as Hd.
    apply Forall_forall. intros p Hp Hn. split.
    - by eapply (proj1 (Forall_forall _ _) Hkeys).
    - intros _. apply has_data_solid. by eapply (proj1 (Forall_forall _ _) Hd). }
  set (acc := (default ∅ (Request.files req), default ∅ (Request.fields req))).
  destruct (forEach_place_total ps acc Hkeys) as [[files fields] Hacc].
  exists files, fields. rewrite Hacc, bind_Ok. split; [done|].
  intros k. split; intros Hk.
  - destruct (forEach_place_held true k ps acc []) as (acc' & Hacc' & Hl); try done.
    rewrite Hacc in Hacc'. by injection Hacc' as <-.
  - destruct (forEach_place_held false k ps acc []) as (acc' & Hacc' & Hl); try done.
    rewrite Hacc in Hacc'. by injection Hacc' as <-.
Qed.
End MiddlewareLemmas.

Section MiddlewareTheorems.
Variable ToString : jsval → outcome string.

(** X11: what the handler leaves in [req.files] and [req.fields].  When the
    body parses and the name of every part that has a truthy one converts
    to a property key, other than [__proto__] (as every name that is a
    string does), the handler throws nothing and calls [next()]; under a
    name [k] that was not there before and is not the name of a member of
    [Object.prototype], [req.files] has the parts that have a truthy name
    with key [k] and a truthy filename, and [req.fields] has the [data] of
    the other parts with that name: the value itself when there is one, the
    array of all of them in body order when there are several, and nothing
    when there is none. *)
Theorem middleware_collects req ct ps :
  Request.content_type req = Some ct →
  parse (Request.body req) (getBoundary ct) = Ok ps →
  Forall (keyed ToString) ps →
  ∃ files fields,
    middleware ToString req =
      Ok (Some (Request.mk (Some ct) (Request.body req) (Some files) (Some fields))) ∧
    ∀ k, k ∉ Object_prototype →
      (default ∅ (Request.files req) !! k = None →
       files !! k = collect (values_under ToString true k ps)) ∧
      (default ∅ (Request.fields req) !! k = None →
       fields !! k = collect (values_under ToString false k ps)).
Proof.
  intros Hct Hps Hkeys.
  destruct (middleware_held ToString req ct ps Hct Hps Hkeys)
    as (files & fields & Hm & Hk).
  exists files, fields. split; [done|]. intros k Hfresh.
  rewrite <-!(held_fresh k) by done. apply Hk.
Qed.

(** X12: a part named like a member of [Object.prototype] ([toString],
    [constructor], [hasOwnProperty], ...) is not stored as the others are.
    When the body parses and the name of every part that has a truthy one
    converts to a property key, other than [__proto__], the handler finds
    the inherited member under such a name, and what it stores is an array
    that begins with that member, followed by the values of the parts in
    body order, even when there is one part only. *)
Theorem middleware_inherited_name req ct ps :
  Request.content_type req = Some ct →
  parse (Request.body req) (getBoundary ct) = Ok ps →
  Forall (keyed ToString) ps →
  ∃ files fields,
    middleware ToString req =
      Ok (Some (Request.mk (Some ct) (Request.body req) (Some files) (Some fields))) ∧
    ∀ k, k ∈ Object_prototype →
      (default ∅ (Request.files req) !! k = None →
       values_under ToString true k ps ≠ [] →
       files !! k = Some (DArr (DInherited k :: values_under ToString true k ps))) ∧
      (default ∅ (Request.fields req) !! k = None →
       values_under ToString false k ps ≠ [] →
       fields !! k = Some (DArr (DInherited k :: values_under ToString false k ps))).
Proof.
  intros Hct Hps Hkeys.
  destruct (middleware_held ToString req ct ps Hct Hps Hkeys)
    as (files & fields & Hm & Hk).
  exists files, fields. split; [done|]. intros k Hin.
  split; intros Hnone Hvs; rewrite <-(held_inherited k) by done; by apply Hk.
Qed.

(** X13: the handler touches only the names of the parts it stores.  Under
    a name [k] that is the key of no part with a truthy name, [req.files]
    and [req.fields] hold after the call what they held before it, or
    nothing when they were not objects. *)
Theorem middleware_keeps_other_names req ct ps req' :
  Request.content_type req = Some ct →
  parse (Request.body req) (getBoundary ct) = Ok ps →
  middleware ToString req = Ok (Some req') →
  ∀ k, Forall (λ part, prop_truthy (part !! "name") = true →
                       part_key ToString part ≠ Ok k) ps →
       default ∅ (Request.files req') !! k = default ∅ (Request.files req) !! k ∧
       default ∅ (Request.fields req') !! k = default ∅ (Request.fields req) !! k.
Proof.
  intros Hct Hps. unfold middleware. rewrite Hct. cbv zeta. rewrite Hps, bind_Ok.
  destruct (forEach_place _ _ _) as [[acc|]|] eqn:E; [|done..].
  rewrite bind_Ok. intros [= <-] k Hk. cbn [Request.files Request.fields default].
  split.
  - apply (forEach_place_frame ToString true k _ _ _ E Hk).
  - apply (forEach_place_frame ToString false k _ _ _ E Hk).
Qed.

Hypothesis ToString_string : ∀ s, ToString (VStr s) = Ok s.

Lemma expected_part_name e : expected_part e !! "name" = Some (VStr (entry_name e)).
Proof. destruct e; unfold expected_part; by rewrite lookup_insert_eq. Qed.

Lemma expected_part_filename e :
  prop_truthy (expected_part e !! "filename") = is_upload e.
Proof.
  destruct e as [n v|n f t p]; unfold expected_part.
  - by rewrite lookup_insert_ne, lookup_singleton_ne.
  - by rewrite lookup_insert_ne, lookup_insert_eq.
Qed.

Lemma expected_part_data e : expected_part e !! "data" = Some (entry_data e).
Proof.
  destruct e as [n v|n f t p]; unfold expected_part.
  - by rewrite lookup_insert_ne, lookup_singleton_eq.
  - by rewrite !lookup_insert_ne, lookup_singleton_eq.
Qed.

Lemma stored_in_entry asFile k e :
  stored_in ToString asFile k (expected_part e) =
  negb (String.eqb (entry_name e) "") && Bool.eqb (is_upload e) asFile &&
  String.eqb (entry_name e) k.
Proof using ToString_string.
  unfold stored_in, part_key.
  by rewrite expected_part_name, expected_part_filename, ToString_string.
Qed.

Lemma values_under_entries asFile k es :
  values_under ToString asFile k (map expected_part es) =
  map (λ e, if asFile then DPart (expected_part e) else DVal (entry_data e))
      (entries_under asFile k es).
Proof using ToString_string.
  unfold values_under, entries_under. induction es as [|e es IH]; [done|].
  cbn [map List.filter]. rewrite stored_in_entry.
  destruct (_ && _ && _); [|done]. cbn [map]. rewrite IH. f_equal.
  unfold partData. destruct asFile; [done|]. by rewrite expected_part_data.
Qed.

(** X14: the handler on a form, end to end.  For a content-type header value
    that announces the boundary [b] and a well-formed body of entries (as
    in C2) with that boundary, none named [__proto__], the handler calls
    [next()] with, under each name [k] that was not there before and is not
    the name of a member of [Object.prototype]: in [req.files] the parts of
    the files named [k] that have a filename, and in [req.fields] the value
    of the simple fields named [k] and the Buffer of the files named [k]
    whose filename is empty; one value as it is, several as an array in
    body order.  An entry with an empty name is stored nowhere. *)
Theorem middleware_form b m post es files0 fields0 :
  text b → all_chars (is_not ";") b = true → all_chars (is_not "=") b = true →
  JS.trim b = b →
  ¬ has_sub "boundary" m → post = "" ∨ (∃ r, post = String ";" r) →
  Forall (wf_entry b) es →
  Forall (λ e, entry_name e ≠ "__proto__") es →
  ∃ files fields,
    middleware ToString
      (Request.mk (Some (with_boundary m b post))
         (encode b (map segment_of es)) files0 fields0) =
      Ok (Some (Request.mk (Some (with_boundary m b post))
                  (encode b (map segment_of es)) (Some files) (Some fields))) ∧
    ∀ k, k ∉ Object_prototype →
      (default ∅ files0 !! k = None →
       files !! k = collect (map (λ e, DPart (expected_part e))
                               (entries_under true k es))) ∧
      (default ∅ fields0 !! k = None →
       fields !! k = collect (map (λ e, DVal (entry_data e))
                                (entries_under false k es))).
Proof using ToString_string.
  intros Hb Hb1 Hb2 Hb3 Hm Hpost Hwf Hnames.
  set (req := Request.mk _ _ files0 fields0).
  destruct (middleware_held ToString req (with_boundary m b post)
              (map expected_part es)) as (files & fields & Hmw & Hk).
  - done.
  - subst req. cbn [Request.body].
    rewrite getBoundary_with_boundary by done. by apply parse_entries.
  - apply Forall_fmap. eapply Forall_impl; [exact Hnames|].
    intros e He _. exists (entry_name e). unfold part_key.
    by rewrite expected_part_name, ToString_string.
  - exists files, fields. split; [done|]. intros k Hfresh.
    pose proof (values_under_entries true k es) as Ht.
    pose proof (values_under_entries false k es) as Hf.
    cbv iota in Ht, Hf. rewrite <-Ht, <-Hf, <-!(held_fresh k) by done.
    apply Hk.
Qed.
End MiddlewareTheorems.

(** The names of the parts of the examples are strings. *)
Lemma string_keyed part n :
  part !! "name" = Some (VStr n) → n ≠ "__proto__" → keyed string_key part.
Proof.
  intros Hn Hne _. exists n. unfold part_key. by rewrite Hn.
Qed.

(** [body1]: the file goes to [req.files], the field to [req.fields]. *)
Lemma middleware_collects_witness :
  Request.content_type form_request = Some "multipart/form-data; boundary=XyZ" ∧
  parse (Request.body form_request)
    (getBoundary "multipart/form-data; boundary=XyZ") = Ok parts1 ∧
  Forall (keyed string_key) parts1 ∧
  ∃ files fields,
    middleware string_key form_request =
      Ok (Some (Request.mk (Some "multipart/form-data; boundary=XyZ")
                  (Request.body form_request) (Some files) (Some fields))) ∧
    ∀ k, k ∉ Object_prototype →
      (default ∅ (Request.files form_request) !! k = None →
       files !! k = collect (values_under string_key true k parts1)) ∧
      (default ∅ (Request.fields form_request) !! k = None →
       fields !! k = collect (values_under string_key false k parts1)).
Proof.
  assert (parse (Request.body form_request)
            (getBoundary "multipart/form-data; boundary=XyZ") = Ok parts1) as H1
    by (vm_compute; reflexivity).
  assert (Forall (keyed string_key) parts1) as H2.
  { repeat constructor.
    - apply (string_keyed _ "foo"); [reflexivity|discriminate].
    - apply (string_keyed _ "upload"); [reflexivity|discriminate]. }
  split; [reflexivity|]. split; [exact H1|]. split; [exact H2|].
  exact (middleware_collects string_key form_request _ parts1 eq_refl H1 H2).
Defined.

(** A form with one field, named [toString]. *)
Lemma middleware_inherited_name_witness :
  Request.content_type toString_request = Some "multipart/form-data; boundary=XyZ" ∧
  parse (Request.body toString_request)
    (getBoundary "multipart/form-data; boundary=XyZ") =
    Ok (map expected_part toString_entries) ∧
  Forall (keyed string_key) (map expected_part toString_entries) ∧
  "toString" ∈ Object_prototype ∧
  ∃ files fields,
    middleware string_key toString_request =
      Ok (Some (Request.mk (Some "multipart/form-data; boundary=XyZ")
                  (Request.body toString_request) (Some files) (Some fields))) ∧
    fields !! "toString" = Some (DArr [DInherited "toString"; DVal (VStr "1")]).
Proof.
  assert (parse (Request.body toString_request)
            (getBoundary "multipart/form-data; boundary=XyZ") =
            Ok (map expected_part toString_entries)) as H1
    by (vm_compute; reflexivity).
  assert (Forall (keyed string_key) (map expected_part toString_entries)) as H2.
  { repeat constructor. apply (string_keyed _ "toString"); [reflexivity|discriminate]. }
  assert ("toString" ∈ Object_prototype) as H3 by (vm_compute; repeat constructor).
  assert (values_under string_key false "toString"
            (map expected_part toString_entries) = [DVal (VStr "1")]) as H4
    by (vm_compute; reflexivity).
  split; [reflexivity|]. split; [exact H1|]. split; [exact H2|]. split; [exact H3|].
  destruct (middleware_inherited_name string_key toString_request _ _ eq_refl H1 H2)
    as (files & fields & Hm & Hk).
  exists files, fields. split; [exact Hm|].
  rewrite <-H4. apply (Hk "toString" H3); [reflexivity|].
  rewrite H4. discriminate.
Defined.

(** A request that has the field [user] already: it is kept. *)
Lemma middleware_keeps_other_names_witness :
  Request.content_type session_request = Some "multipart/form-data; boundary=XyZ" ∧
  parse (Request.body session_request)
    (getBoundary "multipart/form-data; boundary=XyZ") = Ok parts1 ∧
  middleware string_key session_request = Ok (Some session_request_done) ∧
  Forall (λ part, prop_truthy (part !! "name") = true →
                  part_key string_key part ≠ Ok "user") parts1 ∧
  default ∅ (Request.fields session_request_done) !! "user" =
    default ∅ (Request.fields session_request) !! "user".
Proof.
  assert (parse (Request.body session_request)
            (getBoundary "multipart/form-data; boundary=XyZ") = Ok parts1) as H1
    by (vm_compute; reflexivity).
  assert (middleware string_key session_request = Ok (Some session_request_done)) as H2
    by (vm_compute; reflexivity).
  assert (Forall (λ part, prop_truthy (part !! "name") = true →
                          part_key string_key part ≠ Ok "user") parts1) as H3
    by (repeat constructor; intros _; vm_compute; discriminate).
  split; [reflexivity|]. split; [exact H1|]. split; [exact H2|]. split; [exact H3|].
  exact (proj2 (middleware_keeps_other_names string_key session_request _ parts1
                  session_request_done eq_refl H1 H2 "user" H3)).
Defined.

(** The form of [body1] under the boundary [XyZ]. *)
Lemma middleware_form_witness :
  (∀ s, string_key (VStr s) = Ok s) ∧
  text "XyZ" ∧ JS.trim "XyZ" = "XyZ" ∧
  ¬ has_sub "boundary" "multipart/form-data" ∧
  Forall (wf_entry "XyZ") two_entries ∧
  Forall (λ e, entry_name e ≠ "__proto__") two_entries ∧
  ∃ files fields,
    middleware string_key
      (Request.mk (Some (with_boundary "multipart/form-data" "XyZ" ""))
         (encode "XyZ" (map segment_of two_entries)) None None) =
      Ok (Some (Request.mk (Some (with_boundary "multipart/form-data" "XyZ" ""))
                  (encode "XyZ" (map segment_of two_entries))
                  (Some files) (Some fields))) ∧
    ∀ k, k ∉ Object_prototype →
      (default (∅ : gmap string dval) None !! k = None →
       files !! k = collect (map (λ e, DPart (expected_part e))
                               (entries_under true k two_entries))) ∧
      (default (∅ : gmap string dval) None !! k = None →
       fields !! k = collect (map (λ e, DVal (entry_data e))
                                (entries_under false k two_entries))).
Proof.
  assert (¬ has_sub "boundary" "multipart/form-data") as H1
    by (apply no_boundary_in; reflexivity).
  assert (Forall (λ e, entry_name e ≠ "__proto__") two_entries) as H2
    by (repeat constructor; discriminate).
  split; [reflexivity|]. split; [reflexivity|]. split; [reflexivity|].
  split; [exact H1|]. split; [exact two_entries_wf|]. split; [exact H2|].
  exact (middleware_form string_key (λ s, eq_refl) "XyZ" "multipart/form-data" ""
           two_entries None None eq_refl eq_refl eq_refl eq_refl H1
           (or_introl eq_refl) two_entries_wf H2).
Defined.
